(** * news-backend: the location-aware trending engine

    A shallow embedding of [services/llmService.go] (event simulator,
    trending scorer, quantized result cache, content resolver and the
    haversine distance) together with the properties its specification
    states about it.

    Conventions of the embedding:
    - Go's [float64] is Rocq's primitive binary64 [float]; [+ - * /],
      [math.Sqrt] and the comparisons are the IEEE-754 operations, so
      [x <? y] is Go's [x < y] and [x =? y] is Go's [x == y] (false on NaN).
    - The transcendental functions of package [math], [fmt]'s float
      formatting and [sort.Slice] are not part of the repository: they are
      the fields of the class [GoLib], and what a proof needs from them is a
      stated hypothesis.
    - [time.Time] is an instant in nanoseconds; [time.Duration] is an int64
      count of nanoseconds and [Sub] saturates as Go's does.
    - Package-level variables ([events], [cache]) are the fields of
      [State]; clock readings and the outcome of I/O are fields of [Env]. *)

From Stdlib Require Import ZArith Lia Bool List Floats String Ascii Uint63.
From Stdlib Require Import Permutation Sorted.
From stdpp Require Import base option gmap strings list pretty.

Local Open Scope string_scope.
Local Open Scope Z_scope.

(* ===================================================================== *)
(** * Part I: definitions                                                 *)
(* ===================================================================== *)

(** ** float64 helpers *)

Module F64.

(** Neither NaN nor an infinity, read off the IEEE datum. *)
Definition finite (x : float) : bool :=
  match Prim2SF x with
  | S754_zero _ | S754_finite _ _ _ => true
  | _ => false
  end.

(** Position of a non-NaN datum in the IEEE order, as a triple of
    integers compared lexicographically. *)
Definition rank (x : spec_float) : Z * Z * Z :=
  match x with
  | S754_infinity true => (-2, 0, 0)
  | S754_finite true m e => (-1, - e, Z.neg m)
  | S754_zero _ => (0, 0, 0)
  | S754_nan => (0, 0, 0)
  | S754_finite false m e => (1, e, Z.pos m)
  | S754_infinity false => (2, 0, 0)
  end.

Definition lt3 (a b : Z * Z * Z) : Prop :=
  let '(a1, a2, a3) := a in
  let '(b1, b2, b3) := b in
  a1 < b1 \/ (a1 = b1 /\ (a2 < b2 \/ (a2 = b2 /\ a3 < b3))).

Definition le3 (a b : Z * Z * Z) : Prop := lt3 a b \/ a = b.

(** Go's [float64(n)] for an integer with [|n| < 2^63]. *)
Definition of_int (n : Z) : float :=
  if n <? 0 then (- of_uint63 (Uint63.of_Z (- n)))%float
  else of_uint63 (Uint63.of_Z n).

End F64.

(** ** Package [time] *)

Module time.

Definition Time := Z.
Definition Duration := Z.

Definition minDuration : Duration := - 2 ^ 63.
Definition maxDuration : Duration := 2 ^ 63 - 1.

Definition Nanosecond : Duration := 1.
Definition Second : Duration := 1000000000.
Definition Minute : Duration := 60 * Second.
Definition Hour : Duration := 60 * Minute.

(** [t.Sub(u)]: the difference, saturated to the int64 range. *)
Definition Sub (t u : Time) : Duration :=
  Z.max minDuration (Z.min maxDuration (t - u)).

(** [t.Add(d)]. *)
Definition Add (t : Time) (d : Duration) : Time := t + d.

(** [time.Since(t)] when the clock reads [now]. *)
Definition Since (now t : Time) : Duration := Sub now t.

(** [d.Hours()]: integer hours plus the remainder over [60*60*1e9];
    Go's [/] and [%] on integers truncate toward zero. *)
Definition Hours (d : Duration) : float :=
  (F64.of_int (Z.quot d Hour) + F64.of_int (Z.rem d Hour) / 3600000000000)%float.

End time.

(** ** Package [models] *)

Module models.

Record Article := {
  ID : string;
  Title : string;
  Description : string;
  URL : string;
  PublicationRaw : string;
  Publication : time.Time;
  SourceName : string;
  Category : list string;
  RelevanceScore : float;
  Latitude : float;
  Longitude : float
}.

End models.

(** ** Package [services]: data *)

Record Event := {
  ArticleID : string;
  Type_ : string;            (* view, click, share *)
  Lat : float;
  Lon : float;
  Ts : time.Time
}.

Record trendingItem := {
  Article : models.Article;
  Score : float
}.

Record cachedTrending := {
  At : time.Time;
  Result : list trendingItem
}.

(** The package-level variables [events] and [cache]. *)
Record State := {
  events : list Event;
  cache : gmap string cachedTrending
}.

(** A call either returns or panics. *)
Inductive outcome (A : Type) : Type :=
| Returns (a : A)
| Panics.
Arguments Returns {A} a.
Arguments Panics {A}.

(** Go's [error]; [None] is [nil]. *)
Definition error := option string.

(** [s[:n]]: a run-time panic unless [0 <= n <= len(s)] (the slices sliced
    here never have spare capacity that a caller relies on). *)
Definition sliceTo {A : Type} (s : list A) (n : Z) : outcome (list A) :=
  if (n <? 0) || (Z.of_nat (length s) <? n) then Panics
  else Returns (take (Z.to_nat n) s).

(** [s[i]]: a run-time panic when the index is out of range. *)
Definition index {A : Type} (s : list A) (i : Z) : outcome A :=
  if i <? 0 then Panics
  else match s !! Z.to_nat i with
       | Some x => Returns x
       | None => Panics
       end.

(** ** What the program takes from Go's standard library *)

Class GoLib := {
  Sin : float -> float;                       (* math.Sin *)
  Cos : float -> float;                       (* math.Cos *)
  Atan2 : float -> float -> float;            (* math.Atan2 *)
  Exp : float -> float;                       (* math.Exp *)
  Round : float -> float;                     (* math.Round *)
  FormatF : nat -> float -> string;           (* the verb %.Nf of fmt *)
  sortSlice :                                 (* sort.Slice *)
    list trendingItem -> (trendingItem -> trendingItem -> bool) -> list trendingItem
}.

(** [math.Pi], [math.Ln2] and [0.05] as the float64 values the untyped
    constants convert to. *)
Definition Pi : float := 0x1.921fb54442d18p+1%float.
Definition Ln2 : float := 0x1.62e42fefa39efp-1%float.
Definition c0_05 : float := 0x1.999999999999ap-5%float.

(** What [less] has to be on the elements of the slice for [sort.Slice] to
    sort it: irreflexive, transitive, and with transitive incomparability
    (the requirement package [sort] puts on [Less]). *)
Definition strictWeakOn {A : Type} (less : A -> A -> bool) (l : list A) : Prop :=
  (forall x, In x l -> less x x = false) /\
  (forall x y z, In x l -> In y l -> In z l ->
     less x y = true -> less y z = true -> less x z = true) /\
  (forall x y z, In x l -> In y l -> In z l ->
     less x y = false -> less y z = false -> less x z = false).

(** The contract of [sort.Slice]: it permutes the slice, and under a
    proper [less] no later element is less than an earlier one. *)
Definition sortContract (L : GoLib) : Prop :=
  forall l less,
    Permutation l (sortSlice l less) /\
    (strictWeakOn less l ->
     StronglySorted (fun x y => less y x = false) (sortSlice l less)).

Section Services.
Context {L : GoLib}.
Local Open Scope float_scope.

(** ** [haversine] (llmService.go:251-261; the copy in the controllers
    package is the same text) *)
Definition toRad (d : float) : float := d * Pi / 180.

Definition haversine (lat1 lon1 lat2 lon2 : float) : float :=
  let R := 6371 in
  let dLat := toRad (lat2 - lat1) in
  let dLon := toRad (lon2 - lon1) in
  let lat1r := toRad lat1 in
  let lat2r := toRad lat2 in
  let a := Sin (dLat / 2) * Sin (dLat / 2)
           + Cos lat1r * Cos lat2r * Sin (dLon / 2) * Sin (dLon / 2) in
  let c := 2 * Atan2 (PrimFloat.sqrt a) (PrimFloat.sqrt (1 - a)) in
  R * c.

(** ** The scoring loop (llmService.go:126-142) *)

(** [weights := map[string]float64{...}] *)
Definition weights : gmap string float :=
  <["share" := 3]> (<["click" := 2]> (<["view" := 1]> ∅)).

(** A map read [m[k]] yields the zero value for a missing key. *)
Definition getF (m : gmap string float) (k : string) : float :=
  default 0 (m !! k).

(** The loop's test [d > radius]. *)
Definition outside (lat lon radius : float) (e : Event) : bool :=
  radius <? haversine lat lon (Lat e) (Lon e).

(** The events of article [id] that the loop does not skip. *)
Definition kept (lat lon radius : float) (id : string) (e : Event) : bool :=
  String.eqb (ArticleID e) id && negb (outside lat lon radius e).

(** What one surviving event adds to its article's score. *)
Definition contribution (lat lon : float) (now : time.Time) (e : Event) : float :=
  let d := haversine lat lon (Lat e) (Lon e) in
  let ageHours := time.Hours (time.Sub now (Ts e)) in
  let decay := Exp (- Ln2 * ageHours / 12) in
  let w := getF weights (Type_ e) in
  w * decay * (1 / (1 + d)).

(** One iteration of [for _, e := range evs]. *)
Definition scoreStep (lat lon radius : float) (now : time.Time)
    (scoreMap : gmap string float) (e : Event) : gmap string float :=
  if outside lat lon radius e then scoreMap
  else <[ArticleID e := getF scoreMap (ArticleID e) + contribution lat lon now e]> scoreMap.

Definition scoreEvents (lat lon radius : float) (now : time.Time)
    (evs : list Event) : gmap string float :=
  fold_left (scoreStep lat lon radius now) evs ∅.

(** ** [cacheKey] (llmService.go:178-184) *)
Definition cacheKey (lat lon radius : float) : string :=
  let rlat := Round (lat * 100) / 100 in
  let rlon := Round (lon * 100) / 100 in
  let rr := Round (radius * 10) / 10 in
  (FormatF 2 rlat ++ ":" ++ FormatF 2 rlon ++ ":" ++ FormatF 1 rr)%string.

End Services.

(** ** The outside world of a call *)

Inductive result (A : Type) : Type :=
| Ok (a : A)
| Err (e : string).
Arguments Ok {A} a.
Arguments Err {A} e.

(** What the two article sources answer. *)
Record World := {
  dbArticles : result (list models.Article);              (* the [articles] collection *)
  fileArticles : string -> result (list models.Article)   (* a JSON file, decoded *)
}.

(** The readings of [time.Now()] a call makes, in program order, and the
    world its reads go to. *)
Record Env := {
  tSince : time.Time;      (* llmService.go:108, inside time.Since *)
  tNow : time.Time;        (* llmService.go:126 *)
  tStore : time.Time;      (* llmService.go:169 *)
  world : World
}.

(** [LoadAllArticlesFromDB] (llmService.go:220-248): the decoded documents,
    or [nil] and the error of connecting or querying. *)
Definition LoadAllArticlesFromDB (w : World) : list models.Article * error :=
  match dbArticles w with
  | Ok out => (out, None)
  | Err e => ([], Some e)
  end.

(** [LoadNewsDataFromFile] (llmService.go:264-279): the decoded array, or
    [nil] and the error of opening, reading or decoding. *)
Definition LoadNewsDataFromFile (w : World) (path : string) : list models.Article * error :=
  match fileArticles w path with
  | Ok arr => (arr, None)
  | Err e => ([], Some e)
  end.

(** [idset := map[string]bool{}; for _, id := range ids { idset[id] = true }] *)
Definition mkIdset (ids : list string) : gmap string bool :=
  fold_left (fun m id => <[id := true]> m) ids ∅.

(** [idset[k]], [false] for a missing key. *)
Definition getB (m : gmap string bool) (k : string) : bool :=
  default false (m !! k).

(** [loadArticlesByIDs] (llmService.go:187-217). *)
Definition loadArticlesByIDs (w : World) (ids : list string) : list models.Article :=
  let '(articles, err) := LoadAllArticlesFromDB w in
  match err with
  | Some _ =>
      (* fallback *)
      let '(all, _) := LoadNewsDataFromFile w "data/news_data.json" in
      let idset := mkIdset ids in
      List.filter (fun a => getB idset (models.ID a)) all
  | None =>
      let idset := mkIdset ids in
      List.filter (fun a => getB idset (models.ID a)) articles
  end.

Section Trending.
Context {L : GoLib}.
Local Open Scope float_scope.

(** The closing [if len(x) > limit { return x[:limit], nil }; return x, nil]. *)
Definition topLimit (items : list trendingItem) (limit : Z)
    : outcome (list trendingItem * error) :=
  if (limit <? Z.of_nat (length items))%Z then
    match sliceTo items limit with
    | Returns s => Returns (s, None)
    | Panics => Panics
    end
  else Returns (items, None).

(** [sort.Slice]'s [less]: [items[i].Score > items[j].Score]. *)
Definition byScoreDesc (x y : trendingItem) : bool := Score y <? Score x.

(** llmService.go:119-165: snapshot, score, resolve, build and sort. *)
Definition computeTrending (st : State) (env : Env) (lat lon radius : float)
    : list trendingItem :=
  let evs := events st in
  let now := tNow env in
  let scoreMap := scoreEvents lat lon radius now evs in
  let ids := (map_to_list scoreMap).*1 in
  let articles :=
    if (0 <? Z.of_nat (length ids))%Z then loadArticlesByIDs (world env) ids else [] in
  let items :=
    map (fun a => {| Article := a; Score := getF scoreMap (models.ID a) |}) articles in
  sortSlice items byScoreDesc.

(** The path taken when the probe of the cache does not return. *)
Definition recompute (st : State) (env : Env) (lat lon radius : float) (limit : Z)
    : outcome (list trendingItem * error) * State :=
  let key := cacheKey lat lon radius in
  let items := computeTrending st env lat lon radius in
  let st' := {| events := events st;
                cache := <[key := {| At := tStore env; Result := items |}]> (cache st) |} in
  (topLimit items limit, st').

(** [GetTrendingForLocation] (llmService.go:103-176). *)
Definition GetTrendingForLocation (st : State) (env : Env)
    (lat lon radius : float) (limit : Z)
    : outcome (list trendingItem * error) * State :=
  let key := cacheKey lat lon radius in
  match cache st !! key with
  | Some e =>
      if (time.Since (tSince env) (At e) <? 60 * time.Second)%Z
      then (topLimit (Result e) limit, st)
      else recompute st env lat lon radius limit
  | None => recompute st env lat lon radius limit
  end.

End Trending.

(** ** The event simulator *)

(** [*rand.Rand]: a source state and the two draws the simulator makes.
    [Intn] is only called with a positive bound here. *)
Class RandSource := {
  rng : Type;
  NewSource : Z -> rng;                 (* rand.New(rand.NewSource(seed)) *)
  Intn : rng -> Z -> Z * rng;
  Float64 : rng -> float * rng
}.

(** The documented ranges: [Intn(n)] in [[0,n)], [Float64()] in [[0.0,1.0)]. *)
Definition randContract (R : RandSource) : Prop :=
  (forall s n, 0 < n -> 0 <= (Intn s n).1 < n) /\
  (forall s, (0 <=? (Float64 s).1)%float = true /\ ((Float64 s).1 <? 1)%float = true).

Section Simulator.
Context {R : RandSource}.
Local Open Scope float_scope.

Definition types : list string := ["view"; "click"; "share"].

(** The body of the loop (llmService.go:84-97). *)
Definition genEvent (articles : list models.Article) (now : time.Time) (rnd : rng)
    : outcome (Event * rng) :=
  let '(i, rnd) := Intn rnd (Z.of_nat (length articles)) in
  match index articles i with
  | Panics => Panics
  | Returns a =>
      let '(u, rnd) := Float64 rnd in
      let lat := models.Latitude a + (u - 0.5) * c0_05 in
      let '(v, rnd) := Float64 rnd in
      let lon := models.Longitude a + (v - 0.5) * c0_05 in
      let '(m, rnd) := Intn rnd (48 * 60) in
      let age := (m * time.Minute)%Z in
      let ts := time.Add now (- age)%Z in
      let '(k, rnd) := Intn rnd (Z.of_nat (length types)) in
      match index types k with
      | Panics => Panics
      | Returns ty =>
          Returns ({| ArticleID := models.ID a; Type_ := ty;
                      Lat := lat; Lon := lon; Ts := ts |}, rnd)
      end
  end.

(** [for i := 0; i < numEvents; i++ { ...; events = append(events, e) }] *)
Fixpoint genLoop (n : nat) (articles : list models.Article) (now : time.Time)
    (rnd : rng) (evs : list Event) : outcome (list Event) :=
  match n with
  | O => Returns evs
  | S n' =>
      match genEvent articles now rnd with
      | Panics => Panics
      | Returns (e, rnd') => genLoop n' articles now rnd' (evs ++ [e])
      end
  end.

(** [simulateEvents] (llmService.go:72-99); [seed] and [now] are the two
    clock readings it makes. *)
Definition simulateEvents (st : State) (articles : list models.Article)
    (seed : Z) (now : time.Time) : outcome State :=
  if (Z.of_nat (length articles) =? 0)%Z then
    Returns {| events := []; cache := cache st |}
  else
    let rnd := NewSource seed in
    let '(k, rnd) := Intn rnd 2000 in
    let numEvents := (1000 + k)%Z in
    match genLoop (Z.to_nat numEvents) articles now rnd [] with
    | Panics => Panics
    | Returns evs => Returns {| events := evs; cache := cache st |}
    end.

End Simulator.

(** ** A reference instance of the library

    Used to run the program on concrete inputs.  [Round], [FormatF] and
    the sort follow Go's definitions ([math.Round] rounds half away from
    zero; [%.Nf] prints the correctly rounded decimal expansion;
    [sort.Slice] on fewer than 12 elements is an insertion sort).  The
    transcendental functions are their leading Taylor terms, which agree
    with Go's at the special values used below ([Sin 0 = 0],
    [Atan2 0 1 = 0], [Exp (-0) = 1]). *)
Module Ref.

Local Open Scope float_scope.

Definition sin (x : float) : float := x.
Definition cos (x : float) : float := 1 - x * x / 2.
Definition atan2 (y x : float) : float := y / x.
Definition exp (x : float) : float := 1 + x + x * x / 2.

(** [math.Round]: nearest integer, halves away from zero, sign kept. *)
Definition round (x : float) : float :=
  match Prim2SF x with
  | S754_finite s m e =>
      if (0 <=? e)%Z then x
      else
        let den := (2 ^ (- e))%Z in
        let q := (Z.pos m / den)%Z in
        let r := (Z.pos m mod den)%Z in
        let n := if (den <=? 2 * r)%Z then (q + 1)%Z else q in
        SF2Prim (binary_normalize prec emax (cond_Zopp s n) 0 s)
  | _ => x
  end.

Fixpoint zeros (n : nat) : string :=
  match n with
  | O => EmptyString
  | S n' => String "0" (zeros n')
  end.

(** The decimal numeral of [n / 10^p] with [p] fraction digits. *)
Definition fixed (p : nat) (n : Z) : string :=
  let scale := (10 ^ Z.of_nat p)%Z in
  let frac := pretty (n mod scale)%Z in
  (pretty (n / scale)%Z ++ "." ++ zeros (p - String.length frac) ++ frac)%string.

Definition roundHalfEven (num den : Z) : Z :=
  let q := (num / den)%Z in
  let r := (num mod den)%Z in
  if (2 * r <? den)%Z then q
  else if (den <? 2 * r)%Z then (q + 1)%Z
  else if Z.even q then q else (q + 1)%Z.

(** [fmt.Sprintf("%.Nf", x)]. *)
Definition formatF (p : nat) (x : float) : string :=
  match Prim2SF x with
  | S754_nan => "NaN"
  | S754_infinity false => "+Inf"
  | S754_infinity true => "-Inf"
  | S754_zero s => ((if s then "-" else EmptyString) ++ fixed p 0)%string
  | S754_finite s m e =>
      let scale := (10 ^ Z.of_nat p)%Z in
      let n := if (0 <=? e)%Z then (Z.pos m * 2 ^ e * scale)%Z
               else roundHalfEven (Z.pos m * scale) (2 ^ (- e)) in
      ((if s then "-" else EmptyString) ++ fixed p n)%string
  end.

(** The inner loop of Go's insertion sort, on the reversed prefix:
    [x] moves left while [less x y] for its left neighbour [y]. *)
Fixpoint insertBack {A : Type} (less : A -> A -> bool) (x : A) (revPrefix : list A)
    : list A :=
  match revPrefix with
  | [] => [x]
  | y :: r => if less x y then y :: insertBack less x r else x :: y :: r
  end.

Definition insertionSort {A : Type} (l : list A) (less : A -> A -> bool) : list A :=
  rev (fold_left (fun acc x => insertBack less x acc) l []).

#[export] Instance lib : GoLib := {|
  Sin := sin; Cos := cos; Atan2 := atan2; Exp := exp;
  Round := round; FormatF := formatF;
  sortSlice := insertionSort
|}.

(** A linear congruential source; [Float64] draws a multiple of 1/8. *)
Definition next (s : Z) : Z :=
  ((s * 6364136223846793005 + 1442695040888963407) mod 2 ^ 64)%Z.

#[export] Instance rand : RandSource := {|
  rng := Z;
  NewSource := fun seed => (seed mod 2 ^ 64)%Z;
  Intn := fun s n => (((s / 2 ^ 33) mod n)%Z, next s);
  Float64 := fun s => (F64.of_int ((s / 2 ^ 33) mod 8) / 8, next s)
|}.

End Ref.

(** ** The scorer as the specification words it

    Used only to compare with [scoreEvents]: the events that count are
    those with [d <= radius], and the type weights are a three-way case. *)
Section AsClaimed.
Context {L : GoLib}.
Local Open Scope float_scope.

(** [d <= radius]. *)
Definition within (lat lon radius : float) (e : Event) : bool :=
  haversine lat lon (Lat e) (Lon e) <=? radius.

(** view = 1.0, click = 2.0, share = 3.0. *)
Definition typeWeight (ty : string) : float :=
  if String.eqb ty "view" then 1
  else if String.eqb ty "click" then 2
  else if String.eqb ty "share" then 3
  else 0.

(** The sum, in snapshot order, of what the selected events of one
    article contribute. *)
Definition sumContributions (lat lon : float) (now : time.Time)
    (sel : Event -> bool) (evs : list Event) (id : string) : float :=
  fold_left (fun acc e => acc + contribution lat lon now e)
    (List.filter (fun e => String.eqb (ArticleID e) id && sel e) evs) 0.

Definition scoreAsClaimed (lat lon radius : float) (now : time.Time)
    (evs : list Event) (id : string) : float :=
  sumContributions lat lon now (within lat lon radius) evs id.

End AsClaimed.

(** ** Concrete data used in examples *)
Module Ex.

Local Open Scope float_scope.

Definition article (id : string) (lat lon : float) : models.Article :=
  {| models.ID := id; models.Title := "title"; models.Description := "description";
     models.URL := ("https://example.org/" ++ id)%string; models.PublicationRaw := "2025-01-01T00:00:00Z";
     models.Publication := 1735689600000000000%Z; models.SourceName := "Reuters";
     models.Category := ["General"]; models.RelevanceScore := 0.5;
     models.Latitude := lat; models.Longitude := lon |}.

Definition a1 : models.Article := article "a1" 10 20.
Definition a2 : models.Article := article "a2" 10 20.

(** A clock reading: 2025-01-02T00:00:00Z in nanoseconds. *)
Definition t0 : time.Time := 1735776000000000000%Z.

Definition sources : World :=
  {| dbArticles := Ok [a1; a2]; fileArticles := fun _ => Ok [a1; a2] |}.

Definition envAt (t : time.Time) : Env :=
  {| tSince := t; tNow := t; tStore := t; world := sources |}.

(** One view of [a1], at the article's own location, happening now. *)
Definition viewNow : Event :=
  {| ArticleID := "a1"; Type_ := "view"; Lat := 10; Lon := 20; Ts := t0 |}.

(** An event whose type is none of the three known ones. *)
Definition likeNow : Event :=
  {| ArticleID := "a1"; Type_ := "like"; Lat := 10; Lon := 20; Ts := t0 |}.

End Ex.

(** ** The resolver as the specification words it *)

(** Membership of an article's id in the given identifier set. *)
Definition memberOf (ids : list string) (a : models.Article) : bool :=
  existsb (String.eqb (models.ID a)) ids.

(** The article list of the source that answers: the primary store, else
    the bundled file, else nothing. *)
Definition answering (w : World) : list models.Article :=
  match dbArticles w with
  | Ok l => l
  | Err _ =>
      match fileArticles w "data/news_data.json" with
      | Ok l => l
      | Err _ => []
      end
  end.

(** ** Order of a ranked list *)




(** More concrete data: a second view, one hour old, of another article;
    stores with two, one and no events; a query point in the same grid
    cell as (10, 20). *)
Module Ex2.

Local Open Scope float_scope.

Definition viewA2 : Event :=
  {| ArticleID := "a2"; Type_ := "view"; Lat := 10; Lon := 20;
     Ts := (Ex.t0 - time.Hour)%Z |}.

Definition twoViews : State := {| events := [Ex.viewNow; viewA2]; cache := ∅ |}.
Definition oneLike : State := {| events := [Ex.likeNow]; cache := ∅ |}.
Definition emptyStore : State := {| events := []; cache := ∅ |}.



End Ex2.

(** ** A simulated event as the specification words it *)

(** [e] refers to one of [articles]; its coordinates are the article's
    plus [(u - 0.5) * 0.05] for draws [u], [v] in [[0, 1)]; its type is one
    of the three; it happened in the 48 hours before [now]. *)
Definition simulatedFrom (articles : list models.Article) (now : time.Time)
    (e : Event) : Prop :=
  exists a u v,
    In a articles /\ ArticleID e = models.ID a /\
    (0 <=? u)%float = true /\ (u <? 1)%float = true /\
    (0 <=? v)%float = true /\ (v <? 1)%float = true /\
    Lat e = (models.Latitude a + (u - 0.5) * c0_05)%float /\
    Lon e = (models.Longitude a + (v - 0.5) * c0_05)%float /\
    In (Type_ e) ["view"; "click"; "share"] /\
    now - 48 * time.Hour <= Ts e <= now.



(** ** The event store under its lock

    [eventsMu] and [events] shared by goroutines, as an interleaving of
    atomic steps.  A writer is a run of [simulateEvents]
    (llmService.go:73-98): [Lock], [events = []Event{}], one [append] per
    generated event, and the deferred [Unlock]; [new] is the sequence of
    events the run generates.  A reader is the snapshot of
    [GetTrendingForLocation] (llmService.go:120-123): [RLock], [make] of
    [len(events)] elements, [copy], [RUnlock].  [Lock] waits until no one
    holds the mutex, [RLock] until no writer holds it. *)
Module Conc.

Inductive writerPc : Type :=
| WIdle                             (* before eventsMu.Lock() *)
| WReset                            (* holds the lock, before events = []Event{} *)
| WFill (todo : list Event)         (* holds the lock, events still to append *)
| WDone.                            (* after the deferred Unlock *)

Inductive readerPc : Type :=
| RIdle                             (* before eventsMu.RLock() *)
| RLocked                           (* holds a read lock, before make *)
| RMade (n : nat)                   (* evs has n zero elements, before copy *)
| RCopied (evs : list Event)        (* after copy, before RUnlock *)
| RDone (evs : list Event).         (* the snapshot it works on *)

Inductive thread : Type :=
| Writer (new : list Event) (pc : writerPc)
| Reader (pc : readerPc).

(** The package variables: [events], and [eventsMu] as the writer flag and
    the number of read locks held. *)
Record Shared := {
  evs : list Event;
  writing : bool;
  readers : nat
}.

(** The zero value of [Event]. *)
Definition zeroEvent : Event :=
  {| ArticleID := EmptyString; Type_ := EmptyString; Lat := 0; Lon := 0; Ts := 0 |}.

(** [copy(dst, src)] into a [dst] of [n] zero elements. *)
Definition copyInto (n : nat) (src : list Event) : list Event :=
  (take n src ++ replicate (n - length src) zeroEvent)%list.

Inductive tstep : Shared -> thread -> Shared -> thread -> Prop :=
| w_lock sh new :
    writing sh = false -> readers sh = 0%nat ->
    tstep sh (Writer new WIdle)
          {| evs := evs sh; writing := true; readers := readers sh |} (Writer new WReset)
| w_reset sh new :
    tstep sh (Writer new WReset)
          {| evs := []; writing := writing sh; readers := readers sh |}
          (Writer new (WFill new))
| w_append sh new e todo :
    tstep sh (Writer new (WFill (e :: todo)))
          {| evs := (evs sh ++ [e])%list; writing := writing sh; readers := readers sh |}
          (Writer new (WFill todo))
| w_unlock sh new :
    tstep sh (Writer new (WFill []))
          {| evs := evs sh; writing := false; readers := readers sh |} (Writer new WDone)
| r_lock sh :
    writing sh = false ->
    tstep sh (Reader RIdle)
          {| evs := evs sh; writing := writing sh; readers := S (readers sh) |}
          (Reader RLocked)
| r_make sh :
    tstep sh (Reader RLocked) sh (Reader (RMade (length (evs sh))))
| r_copy sh n :
    tstep sh (Reader (RMade n)) sh (Reader (RCopied (copyInto n (evs sh))))
| r_unlock sh snap :
    tstep sh (Reader (RCopied snap))
          {| evs := evs sh; writing := writing sh; readers := pred (readers sh) |}
          (Reader (RDone snap)).

Record Sys := {
  shared : Shared;
  threads : list thread
}.

(** One goroutine takes one step. *)
Inductive step : Sys -> Sys -> Prop :=
| step_at s i t sh' t' :
    threads s !! i = Some t ->
    tstep (shared s) t sh' t' ->
    step s {| shared := sh'; threads := <[i := t']> (threads s) |}.

Definition idle (t : thread) : Prop :=
  match t with
  | Writer _ WIdle | Reader RIdle => True
  | _ => False
  end.

(** The store holds [old], the mutex is free, no goroutine has started. *)
Definition init (old : list Event) (ts : list thread) : Sys :=
  {| shared := {| evs := old; writing := false; readers := 0 |}; threads := ts |}.

(** A whole collection: the initial one, or all the events of one run of
    the simulator. *)
Definition whole (old : list Event) (ts : list thread) (l : list Event) : Prop :=
  l = old \/ exists i pc, ts !! i = Some (Writer l pc).

(** What a reader has in hand, if anything. *)
Definition snapshotOf (t : thread) : option (list Event) :=
  match t with
  | Reader (RCopied snap) | Reader (RDone snap) => Some snap
  | _ => None
  end.

Definition holdsR (t : thread) : nat :=
  match t with
  | Reader RLocked | Reader (RMade _) | Reader (RCopied _) => 1
  | _ => 0
  end.

Definition holdsW (t : thread) : nat :=
  match t with
  | Writer _ WReset | Writer _ (WFill _) => 1
  | _ => 0
  end.

Definition total (f : thread -> nat) (l : list thread) : nat :=
  fold_right (fun t acc => (f t + acc)%nat) 0%nat l.

(** What the state of the store lets each goroutine be at. *)
Definition threadOk (C : list Event -> Prop) (es : list Event) (t : thread) : Prop :=
  match t with
  | Writer new (WFill todo) => C new /\ (es ++ todo)%list = new
  | Writer new _ => C new
  | Reader (RMade n) => n = length es
  | Reader (RCopied snap) | Reader (RDone snap) => C snap
  | Reader _ => True
  end.

Definition inv (C : list Event -> Prop) (s : Sys) : Prop :=
  readers (shared s) = total holdsR (threads s) /\
  Nat.b2n (writing (shared s)) = total holdsW (threads s) /\
  (writing (shared s) = true -> readers (shared s) = 0%nat) /\
  (writing (shared s) = false -> C (evs (shared s))) /\
  (forall i t, threads s !! i = Some t -> threadOk C (evs (shared s)) t).

End Conc.

(** A run of the simulator and a snapshot, for examples. *)
Module Ex3.

Definition old : list Event := [Ex.viewNow].
Definition new : list Event := [Ex.likeNow; Ex2.viewA2].
Definition goroutines : list Conc.thread :=
  [Conc.Writer new Conc.WIdle; Conc.Reader Conc.RIdle].

(** After the run, then the snapshot. *)
Definition final : Conc.Sys :=
  {| Conc.shared := {| Conc.evs := new; Conc.writing := false; Conc.readers := 0 |};
     Conc.threads := [Conc.Writer new Conc.WDone; Conc.Reader (Conc.RDone new)] |}.

End Ex3.

(** Whether the id of an article has a score. *)
Definition scoredIn (m : gmap string float) (a : models.Article) : bool :=
  match m !! models.ID a with
  | Some _ => true
  | None => false
  end.

(** ** [InitTrendingSimulator] (llmService.go:49-69) *)

(** What [coll.Find] answers: an error, or a cursor over documents, each of
    which [Decode]s into an article or fails to. *)
Inductive findResult : Type :=
| FindErr (e : string)
| Cursor (docs : list (option models.Article)).

(** [for cur.Next(ctx) { var a models.Article;
      if err := cur.Decode(&a); err == nil { articles = append(articles, a) } }] *)
Fixpoint decodeAll (docs : list (option models.Article))
    (articles : list models.Article) : list models.Article :=
  match docs with
  | [] => articles
  | Some a :: docs' => decodeAll docs' (articles ++ [a])%list
  | None :: docs' => decodeAll docs' articles
  end.

(** The body of the goroutine the function starts: nothing after a failed
    [Find], else [simulateEvents] on what decoded. *)
Definition InitTrendingSimulator {R : RandSource} (st : State) (found : findResult)
    (seed : Z) (now : time.Time) : outcome State :=
  match found with
  | FindErr _ => Returns st
  | Cursor docs => simulateEvents st (decodeAll docs []) seed now
  end.

(** ** Go's standard library as the handlers and the query processor use it *)

Class GoStd := {
  fmt_Sscan_d : string -> option Z;           (* fmt.Sscanf(s, "%d", &v): v when err == nil *)
  strconv_ParseFloat : string -> option float;   (* strconv.ParseFloat(s, 64), when err == nil *)
  time_ParseRFC3339 : string -> option time.Time;  (* time.Parse(time.RFC3339, s) *)
  strings_ToLower : string -> string;
  strings_TrimSpace : string -> string;
  strings_Title : string -> string;
  strings_Contains : string -> string -> bool;
  strings_EqualFold : string -> string -> bool;
  strings_Count : string -> string -> Z;
  strings_Fields : string -> list string;
  strings_Trim : string -> string -> string;
  sort_Slice : forall A : Type, list A -> (A -> A -> bool) -> list A
}.

(** The contract of [sort.Slice], at every element type. *)
Definition sortContractOf (S : GoStd) : Prop :=
  forall (A : Type) (l : list A) (less : A -> A -> bool),
    Permutation l (sort_Slice A l less) /\
    (strictWeakOn less l ->
     StronglySorted (fun x y => less y x = false) (sort_Slice A l less)).

(** [c >= 'A' && c <= 'Z'] on a byte. *)
Definition isUpperByte (c : ascii) : bool :=
  let n := N_of_ascii c in ((65 <=? n) && (n <=? 90))%N.

(** [strings.ToLower] leaves no byte in ['A','Z']. *)
Definition lowerContract (S : GoStd) : Prop :=
  forall s c, In c (list_ascii_of_string (strings_ToLower s)) -> isUpperByte c = false.

(** The fields of a string are made of bytes of that string. *)
Definition fieldsContract (S : GoStd) : Prop :=
  forall s w c, In w (strings_Fields s) ->
    In c (list_ascii_of_string w) -> In c (list_ascii_of_string s).

(** ** The query processor (llm_processor.go) *)

Record QueryAnalysis := {
  Entities : list string;
  Categories : list string;
  Sources : list string;
  Intent : string;
  Location : option (float * float)
}.

(** [GenerateSummary] (llm_processor.go:142-146): [fmt.Sprintf("%s. %s", ...)]. *)
Definition GenerateSummary (title description : string) : string * error :=
  ((title ++ ". " ++ description)%string, None).

Section Processor.
Context {S : GoStd}.

Definition commonWords : gmap string bool :=
  list_to_map [("the", true); ("and", true); ("for", true); ("with", true);
               ("this", true); ("that", true); ("have", true); ("from", true);
               ("about", true); ("what", true); ("when", true); ("where", true);
               ("which", true)].

(** [isCommonWord] (llm_processor.go:132-139). *)
Definition isCommonWord (word : string) : bool :=
  getB commonWords (strings_ToLower word).

Definition categories : list string :=
  ["technology"; "business"; "sports"; "entertainment"; "health"; "science"; "politics"].

Definition sources : list string :=
  ["new york times"; "reuters"; "bbc"; "cnn"; "the guardian"].

(** The keys of [knownEntities], as the literal lists them. *)
Definition knownEntities : list string :=
  ["india"; "russia"; "usa"; "china"; "uk"; "technology"; "business"; "sports";
   "politics"; "modi"; "putin"; "biden"; "election"].

(** One iteration of the category loop, and of the source loop with the
    other intent: [if strings.Contains(q, x) { list = append(list, x); Intent = tag }]. *)
Definition tagStep (q tag : string) (st : list string * string) (x : string)
    : list string * string :=
  if strings_Contains q x then ((fst st ++ [x])%list, tag) else st.

(** [found := false; for _, e := range result.Entities
      { if strings.EqualFold(e, s) { found = true; break } }] *)
Definition foundIn (ents : list string) (s : string) : bool :=
  existsb (fun e => strings_EqualFold e s) ents.

(** One iteration of [for entity := range knownEntities]. *)
Definition addKnown (lowerQuery : string) (ents : list string) (entity : string)
    : list string :=
  if strings_Contains lowerQuery entity then
    if foundIn ents entity then ents else (ents ++ [strings_Title entity])%list
  else ents.

(** [len(word) > 0 && word[0] >= 'A' && word[0] <= 'Z'] *)
Definition startsUpper (word : string) : bool :=
  match word with
  | String c _ => isUpperByte c
  | EmptyString => false
  end.

(** One iteration of [for i, word := range words]. *)
Definition addProper (ents : list string) (i : Z) (word : string) : list string :=
  if (Z.of_nat (String.length word) <? 3) || isCommonWord (strings_ToLower word) then ents
  else if startsUpper word then
    if i =? 0 then ents
    else
      let cleanWord := strings_Trim word ",.!?;:" in
      if (3 <=? Z.of_nat (String.length cleanWord))
         && negb (isCommonWord (strings_ToLower cleanWord)) then
        if foundIn ents cleanWord then ents else (ents ++ [cleanWord])%list
      else ents
  else ents.

Fixpoint properLoop (i : Z) (words : list string) (ents : list string) : list string :=
  match words with
  | [] => ents
  | word :: rest => properLoop (i + 1) rest (addProper ents i word)
  end.

(** [ExtractEntitiesAndIntent] (llm_processor.go:21-129); [order] is the
    order in which this run ranges over the map [knownEntities]. *)
Definition ExtractEntitiesAndIntent (order : list string) (query : string)
    : QueryAnalysis * error :=
  let q := strings_ToLower query in
  let intent := "search" in
  let intent :=
    if strings_Contains q "near me" || strings_Contains q "nearby"
       || strings_Contains q "close to" || strings_Contains q "around"
    then "nearby" else intent in
  let '(cats, intent) := fold_left (tagStep q "category") categories ([], intent) in
  let '(srcs, intent) := fold_left (tagStep q "source") sources ([], intent) in
  let lowerQuery := strings_ToLower q in
  let ents := fold_left (addKnown lowerQuery) order [] in
  let words := strings_Fields q in
  let ents := properLoop 0 words ents in
  let intent :=
    if (0 <? Z.of_nat (length ents)) && String.eqb intent "search" then "search"
    else intent in
  let intent :=
    if 0 <? Z.of_nat (length cats) then "category"
    else if 0 <? Z.of_nat (length srcs) then "source"
    else intent in
  ({| Entities := ents; Categories := cats; Sources := srcs;
      Intent := intent; Location := None |}, None).

End Processor.

(** ** Package [controllers] *)

Module controllers.

Record responseArticle := {
  Title : string;
  Description : string;
  URL : string;
  PublicationDate : string;
  SourceName : string;
  Category : list string;
  RelevanceScore : float;
  LLMSummary : string;
  Latitude : float;
  Longitude : float;
  DistanceKM : option float
}.

(** What a handler passes to [c.JSON]: [gin.H{"error": msg}],
    [gin.H{"articles": resp}] with or without ["total"], or a
    [QueryAnalysis]. *)
Inductive body : Type :=
| H_error (msg : string)
| H_articles (articles : list responseArticle) (total : option Z)
| H_analysis (out : QueryAnalysis).

Record Response := { Status : Z; Body : body }.

(** The query string of the request: the first value of each key. *)
Definition Request := gmap string string.

(** [c.Query(key)] and [c.DefaultQuery(key, d)]. *)
Definition Query (c : Request) (key : string) : string :=
  default EmptyString (c !! key).

Definition DefaultQuery (c : Request) (key d : string) : string :=
  default d (c !! key).

(** [0.7], [0.6] and [0.4] as float64. *)
Definition c0_7 : float := 0x1.6666666666666p-1%float.
Definition c0_6 : float := 0x1.3333333333333p-1%float.
Definition c0_4 : float := 0x1.999999999999ap-2%float.

(** The element types of the slices sorted in [SearchArticles] and
    [GetNearbyArticles]. *)
Record scored := { scored_A : models.Article; scored_Score : float }.
Record withDist := { withDist_A : models.Article; withDist_Dist : float }.

Section Handlers.
Context {L : GoLib} {S : GoStd}.
Local Open Scope float_scope.

(** [parseLimit] (part_001:393-404). *)
Definition parseLimit (s : string) : Z :=
  let n := 5%Z in
  if String.eqb s EmptyString then n
  else match fmt_Sscan_d s with
       | Some v => if (0 <? v)%Z then v else n
       | None => n
       end.

(** [parseFloatDefault] (part_001:406-415). *)
Definition parseFloatDefault (s : string) (d : float) : float :=
  if String.eqb s EmptyString then d
  else match strconv_ParseFloat s with
       | None => d
       | Some v => v
       end.

Definition min (a b : Z) : Z := if (a <? b)%Z then a else b.

(** [a.Publication = t] *)
Definition withPublication (a : models.Article) (t : time.Time) : models.Article :=
  {| models.ID := models.ID a; models.Title := models.Title a;
     models.Description := models.Description a; models.URL := models.URL a;
     models.PublicationRaw := models.PublicationRaw a; models.Publication := t;
     models.SourceName := models.SourceName a; models.Category := models.Category a;
     models.RelevanceScore := models.RelevanceScore a;
     models.Latitude := models.Latitude a; models.Longitude := models.Longitude a |}.

(** The loop of [fetchAllArticles] over the cursor. *)
Fixpoint fetchLoop (docs : list (option models.Article)) (out : list models.Article)
    : list models.Article :=
  match docs with
  | [] => out
  | None :: docs' => fetchLoop docs' out
  | Some a :: docs' =>
      let a := match time_ParseRFC3339 (models.PublicationRaw a) with
               | Some t => withPublication a t
               | None => a
               end in
      fetchLoop docs' (out ++ [a])%list
  end.

(** [fetchAllArticles] (part_001:98-118). *)
Definition fetchAllArticles (found : findResult) : list models.Article * error :=
  match found with
  | FindErr e => ([], Some e)
  | Cursor docs => (fetchLoop docs [], None)
  end.

(** [toResponseArticle] (part_001:149-165). *)
Definition toResponseArticle (a : models.Article) (includeDistance : option float)
    : responseArticle :=
  let '(summary, _) := GenerateSummary (models.Title a) (models.Description a) in
  {| Title := models.Title a; Description := models.Description a;
     URL := models.URL a; PublicationDate := models.PublicationRaw a;
     SourceName := models.SourceName a; Category := models.Category a;
     RelevanceScore := models.RelevanceScore a; LLMSummary := summary;
     Latitude := models.Latitude a; Longitude := models.Longitude a;
     DistanceKM := includeDistance |}.

(** The elements visited by [for i := 0; i < min(limit, len(res)); i++]. *)
Definition topN {A : Type} (limit : Z) (res : list A) : list A :=
  take (Z.to_nat (min limit (Z.of_nat (length res)))) res.

Definition badRequest (msg : string) : Response :=
  {| Status := 400; Body := H_error msg |}.

Definition serverError (msg : string) : Response :=
  {| Status := 500; Body := H_error msg |}.

Definition ok (b : body) : Response := {| Status := 200; Body := b |}.

(** [res[i].Publication.After(res[j].Publication)] *)
Definition newerFirst (x y : models.Article) : bool :=
  (models.Publication y <? models.Publication x)%Z.

(** The inner loop of the category filter, which stops at the first match. *)
Definition inCategory (catLower : string) (a : models.Article) : bool :=
  existsb (fun cat => String.eqb (strings_ToLower cat) catLower) (models.Category a).

(** [GetArticlesByCategory] (part_001:168-199). *)
Definition GetArticlesByCategory (found : findResult) (c : Request) : Response :=
  let category := Query c "category" in
  let limit := parseLimit (DefaultQuery c "limit" "5") in
  let '(articles, err) := fetchAllArticles found in
  match err with
  | Some e => serverError e
  | None =>
      let catLower := strings_ToLower category in
      let res := List.filter (inCategory catLower) articles in
      let res := sort_Slice _ res newerFirst in
      let resp := map (fun a => toResponseArticle a None) (topN limit res) in
      ok (H_articles resp (Some (Z.of_nat (length res))))
  end.

(** [res[i].RelevanceScore > res[j].RelevanceScore] *)
Definition byRelevanceDesc (x y : models.Article) : bool :=
  models.RelevanceScore y <? models.RelevanceScore x.

(** [a.RelevanceScore >= threshold] *)
Definition atLeast (threshold : float) (a : models.Article) : bool :=
  threshold <=? models.RelevanceScore a.

(** [GetArticlesByScore] (part_001:202-226). *)
Definition GetArticlesByScore (found : findResult) (c : Request) : Response :=
  let threshold := parseFloatDefault (DefaultQuery c "threshold" "0.7") c0_7 in
  let limit := parseLimit (DefaultQuery c "limit" "5") in
  let '(articles, err) := fetchAllArticles found in
  match err with
  | Some e => serverError e
  | None =>
      let res := List.filter (atLeast threshold) articles in
      let res := sort_Slice _ res byRelevanceDesc in
      let resp := map (fun a => toResponseArticle a None) (topN limit res) in
      ok (H_articles resp (Some (Z.of_nat (length res))))
  end.

(** [float64(strings.Count(text, qLower))] for one article. *)
Definition textCount (qLower : string) (a : models.Article) : float :=
  let text := strings_ToLower (models.Title a ++ " " ++ models.Description a)%string in
  F64.of_int (strings_Count text qLower).

(** One iteration of the first loop of [SearchArticles]. *)
Definition searchStep (qLower : string) (st : list scored * float) (a : models.Article)
    : list scored * float :=
  let '(candidates, maxTextCount) := st in
  let count := textCount qLower a in
  let maxTextCount := if maxTextCount <? count then count else maxTextCount in
  let candidates :=
    if (0 <? count) || (0 <? models.RelevanceScore a)
    then (candidates ++ [{| scored_A := a; scored_Score := count |}])%list
    else candidates in
  (candidates, maxTextCount).

(** The first loop: the candidates and [maxTextCount]. *)
Definition searchScan (qLower : string) (articles : list models.Article)
    : list scored * float :=
  fold_left (searchStep qLower) articles ([], 1).

(** One iteration of the second loop. *)
Definition combine (maxTextCount : float) (x : scored) : scored :=
  let textScore := scored_Score x / maxTextCount in
  let final := c0_6 * models.RelevanceScore (scored_A x) + c0_4 * textScore in
  {| scored_A := scored_A x; scored_Score := final |}.

Definition byScoredDesc (x y : scored) : bool := scored_Score y <? scored_Score x.

(** [SearchArticles] (part_001:229-273). *)
Definition SearchArticles (found : findResult) (c : Request) : Response :=
  let q := strings_TrimSpace (Query c "query") in
  let limit := parseLimit (DefaultQuery c "limit" "5") in
  if String.eqb q EmptyString then badRequest "query required"
  else
    let '(articles, err) := fetchAllArticles found in
    match err with
    | Some e => serverError e
    | None =>
        let qLower := strings_ToLower q in
        let '(candidates, maxTextCount) := searchScan qLower articles in
        let candidates := map (combine maxTextCount) candidates in
        let candidates := sort_Slice _ candidates byScoredDesc in
        let resp := map (fun x => toResponseArticle (scored_A x) None)
                        (topN limit candidates) in
        ok (H_articles resp (Some (Z.of_nat (length candidates))))
    end.

(** [strings.ToLower(a.SourceName) == srcLower] *)
Definition fromSource (srcLower : string) (a : models.Article) : bool :=
  String.eqb (strings_ToLower (models.SourceName a)) srcLower.

(** [GetArticlesBySource] (part_001:276-304). *)
Definition GetArticlesBySource (found : findResult) (c : Request) : Response :=
  let source := Query c "source" in
  let limit := parseLimit (DefaultQuery c "limit" "5") in
  if String.eqb source EmptyString then badRequest "source required"
  else
    let '(articles, err) := fetchAllArticles found in
    match err with
    | Some e => serverError e
    | None =>
        let srcLower := strings_ToLower source in
        let res := List.filter (fromSource srcLower) articles in
        let res := sort_Slice _ res newerFirst in
        let resp := map (fun a => toResponseArticle a None) (topN limit res) in
        ok (H_articles resp (Some (Z.of_nat (length res))))
    end.

(** The body of the filter loop of [GetNearbyArticles]:
    [d := haversine(...); if d <= radius { list = append(list, withDist{a, d}) }];
    the slice [list] is [near] here. *)
Definition nearStep (lat lon radius : float) (near : list withDist) (a : models.Article)
    : list withDist :=
  let d := haversine lat lon (models.Latitude a) (models.Longitude a) in
  if d <=? radius then (near ++ [{| withDist_A := a; withDist_Dist := d |}])%list else near.

Definition byDistAsc (x y : withDist) : bool := withDist_Dist x <? withDist_Dist y.

(** [GetNearbyArticles] (part_001:307-343). *)
Definition GetNearbyArticles (found : findResult) (c : Request) : Response :=
  let lat := parseFloatDefault (Query c "lat") 0 in
  let lon := parseFloatDefault (Query c "lon") 0 in
  let radius := parseFloatDefault (DefaultQuery c "radius" "10") 10 in
  let limit := parseLimit (DefaultQuery c "limit" "5") in
  if (lat =? 0) && (lon =? 0) then badRequest "lat and lon required"
  else
    let '(articles, err) := fetchAllArticles found in
    match err with
    | Some e => serverError e
    | None =>
        let near := fold_left (nearStep lat lon radius) articles [] in
        let near := sort_Slice _ near byDistAsc in
        let resp := map (fun x => toResponseArticle (withDist_A x) (Some (withDist_Dist x)))
                        (topN limit near) in
        ok (H_articles resp (Some (Z.of_nat (length near))))
    end.


(** [ProcessQuery] (part_001:378-390); [order] as in
    [ExtractEntitiesAndIntent]. *)
Definition ProcessQuery (order : list string) (c : Request) : Response :=
  let q := Query c "query" in
  if String.eqb q EmptyString then badRequest "query required"
  else
    let '(out, err) := ExtractEntitiesAndIntent order q in
    match err with
    | Some e => serverError e
    | None => ok (H_analysis out)
    end.

End Handlers.

End controllers.

(** ** A reference instance of [GoStd], for ASCII input

    Used to run the handlers on concrete requests. *)
Module RefStd.

Definition isDigit (c : ascii) : bool :=
  let n := N_of_ascii c in ((48 <=? n) && (n <=? 57))%N.

(** The value of a run of decimal digits, [None] if another byte occurs. *)
Fixpoint digits (s : string) (acc : Z) : option Z :=
  match s with
  | EmptyString => Some acc
  | String c s' =>
      if isDigit c then digits s' (10 * acc + Z.of_N (N_of_ascii c) - 48) else None
  end.

(** A decimal integer with an optional minus sign. *)
Definition scanInt (s : string) : option Z :=
  match s with
  | EmptyString => None
  | String "-" s' =>
      match s' with
      | EmptyString => None
      | _ => option_map Z.opp (digits s' 0)
      end
  | _ => digits s 0
  end.

(** Integers only. *)
Definition parseFloat (s : string) : option float := option_map F64.of_int (scanInt s).

Definition lowerByte (c : ascii) : ascii :=
  if isUpperByte c then ascii_of_N (N_of_ascii c + 32) else c.

Definition isLowerByte (c : ascii) : bool :=
  let n := N_of_ascii c in ((97 <=? n) && (n <=? 122))%N.

Definition upperByte (c : ascii) : ascii :=
  if isLowerByte c then ascii_of_N (N_of_ascii c - 32) else c.

Fixpoint toLower (s : string) : string :=
  match s with
  | EmptyString => EmptyString
  | String c s' => String (lowerByte c) (toLower s')
  end.

Definition isSpace (c : ascii) : bool :=
  let n := N_of_ascii c in ((n =? 32) || ((9 <=? n) && (n <=? 13)))%N.

Fixpoint dropWhile (p : ascii -> bool) (s : string) : string :=
  match s with
  | EmptyString => EmptyString
  | String c s' => if p c then dropWhile p s' else s
  end.

Fixpoint rev_string (s acc : string) : string :=
  match s with
  | EmptyString => acc
  | String c s' => rev_string s' (String c acc)
  end.

Definition trimBoth (p : ascii -> bool) (s : string) : string :=
  rev_string (dropWhile p (rev_string (dropWhile p s) EmptyString)) EmptyString.

Fixpoint memByte (c : ascii) (cutset : string) : bool :=
  match cutset with
  | EmptyString => false
  | String d cutset' => Ascii.eqb c d || memByte c cutset'
  end.

(** Upper-cases the first letter of each word. *)
Fixpoint titleFrom (start : bool) (s : string) : string :=
  match s with
  | EmptyString => EmptyString
  | String c s' => String (if start then upperByte c else c) (titleFrom (isSpace c) s')
  end.

Fixpoint contains (s sub : string) : bool :=
  String.prefix sub s ||
  match s with
  | EmptyString => false
  | String _ s' => contains s' sub
  end.

(** Non-overlapping occurrences of a non-empty [sub]; [fuel] bounds the
    bytes still to be skipped after a match. *)
Fixpoint countFrom (skip : nat) (s sub : string) : Z :=
  match s with
  | EmptyString => 0
  | String _ s' =>
      match skip with
      | S k => countFrom k s' sub
      | O => if String.prefix sub s
             then 1 + countFrom (String.length sub - 1) s' sub
             else countFrom O s' sub
      end
  end.

(** The fields of [s]: [cur] is the field being read, reversed. *)
Fixpoint fieldsFrom (s : string) (cur : string) : list string :=
  match s with
  | EmptyString =>
      match cur with
      | EmptyString => []
      | _ => [rev_string cur EmptyString]
      end
  | String c s' =>
      if isSpace c then
        match cur with
        | EmptyString => fieldsFrom s' EmptyString
        | _ => rev_string cur EmptyString :: fieldsFrom s' EmptyString
        end
      else fieldsFrom s' (String c cur)
  end.

#[export] Instance std : GoStd := {|
  fmt_Sscan_d := scanInt;
  strconv_ParseFloat := parseFloat;
  time_ParseRFC3339 := fun _ => None;
  strings_ToLower := toLower;
  strings_TrimSpace := trimBoth isSpace;
  strings_Title := titleFrom true;
  strings_Contains := contains;
  strings_EqualFold := fun s t => String.eqb (toLower s) (toLower t);
  strings_Count := fun s sub =>
    match sub with
    | EmptyString => Z.of_nat (String.length s) + 1
    | _ => countFrom O s sub
    end;
  strings_Fields := fun s => fieldsFrom s EmptyString;
  strings_Trim := fun s cutset => trimBoth (fun c => memByte c cutset) s;
  sort_Slice := fun A => @Ref.insertionSort A
|}.

End RefStd.

(** ** Concrete data for the handlers *)
Module Ex4.

Local Open Scope float_scope.

(** An article with a relevance score and a publication time. *)
Definition scoredArticle (id : string) (score : float) (pub : time.Time) (lat lon : float)
    : models.Article :=
  {| models.ID := id; models.Title := "Markets rally"; models.Description := "Stocks rise";
     models.URL := ("https://example.org/" ++ id)%string;
     models.PublicationRaw := "2025-01-01T00:00:00Z";
     models.Publication := pub; models.SourceName := "Reuters";
     models.Category := ["Business"]; models.RelevanceScore := score;
     models.Latitude := lat; models.Longitude := lon |}.

Definition b1 : models.Article := scoredArticle "b1" 0.5 100%Z 10 20.
Definition b2 : models.Article := scoredArticle "b2" 0.75 300%Z 10 20.
Definition b3 : models.Article := scoredArticle "b3" 0.25 200%Z 11 20.

(** A cursor whose second document does not decode. *)
Definition cursor : findResult := Cursor [Some b1; None; Some b2; Some b3].

Definition nearbyRequest : controllers.Request :=
  <["lat" := "10"]> (<["lon" := "20"]> (<["radius" := "1000"]> (<["limit" := "2"]> ∅))).

Definition scoreRequest : controllers.Request :=
  <["threshold" := "0"]> (<["limit" := "2"]> ∅).

Definition sourceRequest : controllers.Request :=
  <["source" := "REUTERS"]> (<["category" := "business"]> ∅).

End Ex4.

(* ===================================================================== *)
(** * Part II: properties                                                 *)
(* ===================================================================== *)

(** ** Rounding of small products

    From the bit-level definition of IEEE rounding: a mantissa of at most
    106 bits at an exponent of at most -104 cannot round to an infinity. *)

Module F64Round.

Lemma iter_pos_inv {A : Type} (P : A -> Prop) (f : A -> A) :
  (forall x, P x -> P (f x)) -> forall n x, P x -> P (SpecFloat.iter_pos f n x).
Proof.
  intros Hf. induction n as [n IH|n IH|]; intros x Hx; cbn; auto.
Qed.

Lemma digits2_size p : digits2_pos p = Pos.size p.
Proof. induction p; cbn; congruence. Qed.

Lemma Zdigits2_log2 p : Zdigits2 (Z.pos p) = Z.log2 (Z.pos p) + 1.
Proof. destruct p; cbn; rewrite ?digits2_size; lia. Qed.

Lemma Zdigits2_mono m n : 0 <= m <= n -> Zdigits2 m <= Zdigits2 n.
Proof.
  destruct m as [|p|p], n as [|q|q]; try (cbn; lia).
  intros [_ H]. rewrite !Zdigits2_log2.
  pose proof (Z.log2_le_mono (Z.pos p) (Z.pos q) H). lia.
Qed.

Lemma Zdigits2_mul p q :
  Zdigits2 (Z.pos (p * q)) <= Zdigits2 (Z.pos p) + Zdigits2 (Z.pos q).
Proof.
  rewrite !Zdigits2_log2, Pos2Z.inj_mul.
  pose proof (Z.log2_mul_above (Z.pos p) (Z.pos q)). lia.
Qed.

Lemma Zdigits2_succ m : 0 <= m -> Zdigits2 (m + 1) <= Zdigits2 m + 1.
Proof.
  intros Hm. destruct m as [|p|p]; try lia; [vm_compute; discriminate|].
  change (Z.pos p + 1) with (Z.pos (p + 1)). rewrite !Zdigits2_log2.
  rewrite Pos2Z.inj_add. change (Z.pos p + 1) with (Z.succ (Z.pos p)).
  pose proof (Z.log2_succ_le (Z.pos p)). lia.
Qed.

Lemma shr_1_m_le r : 0 <= shr_m r -> 0 <= shr_m (shr_1 r) <= shr_m r.
Proof.
  destruct r as [m rb sb]. cbn. destruct m as [|p|p]; cbn; try lia.
  destruct p; cbn; lia.
Qed.

Lemma shr_m_of_loc m l : shr_m (shr_record_of_loc m l) = m.
Proof. destruct l as [|[| |]]; reflexivity. Qed.

Lemma shr_fexp_bounds m e l :
  0 <= m ->
  0 <= shr_m (fst (shr_fexp prec emax m e l)) <= m /\
  (snd (shr_fexp prec emax m e l) = e \/
   snd (shr_fexp prec emax m e l) = fexp prec emax (Zdigits2 m + e)).
Proof.
  intros Hm. unfold shr_fexp, shr.
  destruct (fexp prec emax (Zdigits2 m + e) - e) as [|p|p] eqn:E; cbn [fst snd];
    rewrite ?shr_m_of_loc; try (split; [lia | now left]).
  split.
  - apply (iter_pos_inv (fun r => 0 <= shr_m r <= m)).
    + intros r Hr. pose proof (shr_1_m_le r). lia.
    + rewrite shr_m_of_loc. lia.
  - right. lia.
Qed.

Lemma rne_bounds m l : 0 <= m -> m <= round_nearest_even m l <= m + 1.
Proof.
  intros Hm. destruct l as [|[| |]]; cbn; try lia. destruct (Z.even m); lia.
Qed.

(** A product of mantissas of at most 53 bits with exponents of at most -52
    rounds to zero or a finite number. *)
Lemma round_aux_small s m e l :
  0 < m -> Zdigits2 m <= 106 -> e <= -104 ->
  match binary_round_aux prec emax s m e l with
  | S754_zero _ | S754_finite _ _ _ => True
  | _ => False
  end.
Proof.
  intros Hm Hd He. unfold binary_round_aux.
  pose proof (shr_fexp_bounds m e l ltac:(lia)) as [Hm1 He1].
  destruct (shr_fexp prec emax m e l) as [mrs' e']. cbn [fst snd] in *.
  pose proof (rne_bounds (shr_m mrs') (loc_of_shr_record mrs') ltac:(lia)) as Hr.
  set (m1 := round_nearest_even _ _) in *.
  pose proof (shr_fexp_bounds m1 e' loc_Exact ltac:(lia)) as [Hm2 He2].
  destruct (shr_fexp prec emax m1 e' loc_Exact) as [mrs'' e'']. cbn [fst snd] in *.
  assert (Hd1 : Zdigits2 m1 <= 107).
  { pose proof (Zdigits2_mono m1 (m + 1) ltac:(lia)).
    pose proof (Zdigits2_succ m ltac:(lia)). lia. }
  assert (He' : e' <= -51).
  { unfold fexp, SpecFloat.emin, prec, emax in He1. lia. }
  assert (He'' : e'' <= 971).
  { unfold fexp, SpecFloat.emin, prec, emax in He2. lia. }
  destruct (shr_m mrs'') as [|p|p]; [exact I | | lia].
  replace (e'' <=? emax - prec) with true; [exact I|].
  symmetry. apply Z.leb_le. unfold emax, prec. lia.
Qed.

(** The shape of a datum of magnitude at most 1. *)
Lemma abs_le_one_shape X :
  valid_binary X = true ->
  SFleb (SFabs X) (Prim2SF 1%float) = true ->
  match X with
  | S754_zero _ => True
  | S754_finite _ m e => Zdigits2 (Z.pos m) <= 53 /\ e <= -52
  | _ => False
  end.
Proof.
  replace (Prim2SF 1%float) with (S754_finite false 4503599627370496 (-52))
    by (vm_compute; reflexivity).
  destruct X as [s|s| |s m e].
  - intros _ _. exact I.
  - intros _ H. unfold SFleb, SFabs, SFcompare in H. discriminate H.
  - intros _ H. unfold SFleb, SFabs, SFcompare in H. discriminate H.
  - unfold valid_binary, SFabs. intros Hv Hle.
    change (Zdigits2 (Z.pos m)) with (Z.pos (digits2_pos m)). split.
    + unfold bounded, canonical_mantissa in Hv.
      apply andb_true_iff in Hv as [Hc _]. apply Z.eqb_eq in Hc.
      unfold fexp, SpecFloat.emin, prec, emax in Hc. lia.
    + unfold SFleb, SFcompare in Hle.
      destruct (Z.compare_spec e (-52)); first [lia | discriminate Hle].
Qed.

(** Two data of magnitude at most 1 have a finite product. *)
Lemma mul_le_one_finite x y :
  (abs x <=? 1)%float = true -> (abs y <=? 1)%float = true -> F64.finite (x * y) = true.
Proof.
  rewrite !FloatAxioms.leb_spec, !FloatAxioms.abs_spec. intros Hx Hy.
  apply abs_le_one_shape in Hx; [|apply Prim2SF_valid].
  apply abs_le_one_shape in Hy; [|apply Prim2SF_valid].
  unfold F64.finite. rewrite FloatAxioms.mul_spec.
  destruct (Prim2SF x) as [sx|sx| |sx mx ex]; try contradiction;
    destruct (Prim2SF y) as [sy|sy| |sy my ey]; try contradiction; try reflexivity.
  destruct Hx as [Dx Ex], Hy as [Dy Ey].
  unfold SF64mul, SFmul.
  pose proof (round_aux_small (xorb sx sy) (Z.pos (mx * my)) (ex + ey) loc_Exact
                ltac:(lia)) as H.
  pose proof (Zdigits2_mul mx my).
  specialize (H ltac:(lia) ltac:(lia)).
  destruct (binary_round_aux _ _ _ _ _ _); try contradiction; reflexivity.
Qed.

End F64Round.

(** ** Facts about binary64 arithmetic, from the IEEE specification of the
    primitive operations *)

Module F64Facts.

Local Open Scope float_scope.






Lemma SFmul_comm x y : SF64mul x y = SF64mul y x.
Proof.
  destruct x as [sx|sx| |sx mx ex], y as [sy|sy| |sy my ey]; simpl;
    rewrite 1?(xorb_comm sx sy); try reflexivity.
  now rewrite Pos.mul_comm, Z.add_comm.
Qed.

Lemma mul_comm x y : x * y = y * x.
Proof. apply Prim2SF_inj. rewrite !FloatAxioms.mul_spec. apply SFmul_comm. Qed.









(** *** Finite data *)

Lemma sub_self x : F64.finite x = true -> x - x = 0.
Proof.
  unfold F64.finite. intros H. apply Prim2SF_inj. rewrite FloatAxioms.sub_spec.
  destruct (Prim2SF x) as [s|s| |s m e]; try discriminate.
  - destruct s; reflexivity.
  - unfold SF64sub, SFsub. rewrite Z.min_id.
    set (a := cond_Zopp s _).
    replace (a - a)%Z with 0%Z by lia. reflexivity.
Qed.

Lemma mul_zero_r x :
  F64.finite x = true -> exists s, Prim2SF (x * 0) = S754_zero s.
Proof.
  unfold F64.finite. intros H. rewrite FloatAxioms.mul_spec.
  change (Prim2SF 0) with (S754_zero false).
  destruct (Prim2SF x) as [s|s| |s m e]; try discriminate; simpl; eauto.
Qed.

Lemma zero_mul z x s :
  Prim2SF z = S754_zero s -> F64.finite x = true -> exists s', Prim2SF (z * x) = S754_zero s'.
Proof.
  unfold F64.finite. intros Hz H. rewrite FloatAxioms.mul_spec, Hz.
  destruct (Prim2SF x) as [s'|s'| |s' m e]; try discriminate; simpl; eauto.
Qed.

Lemma zero_finite x s : Prim2SF x = S754_zero s -> F64.finite x = true.
Proof. unfold F64.finite. now intros ->. Qed.

Lemma add_zero_l x s : Prim2SF x = S754_zero s -> 0 + x = 0.
Proof.
  intros H. apply Prim2SF_inj. rewrite FloatAxioms.add_spec, H.
  change (Prim2SF 0) with (S754_zero false). destruct s; reflexivity.
Qed.

(** *** The order *)

Lemma nan_spec x : is_nan x = false <-> Prim2SF x <> S754_nan.
Proof.
  unfold is_nan. rewrite FloatAxioms.eqb_spec. unfold SFeqb.
  destruct (Prim2SF x) as [s|s| |s m e]; simpl.
  - split; [discriminate | reflexivity].
  - destruct s; (split; [discriminate | reflexivity]).
  - split; [discriminate | congruence].
  - destruct s; rewrite Z.compare_refl, Pos.compare_cont_refl; simpl;
      (split; [discriminate | reflexivity]).
Qed.

Lemma SFcompare_rank x y :
  x <> S754_nan -> y <> S754_nan ->
  exists c, SFcompare x y = Some c /\
    (c = Lt <-> F64.lt3 (F64.rank x) (F64.rank y)) /\
    (c = Gt <-> F64.lt3 (F64.rank y) (F64.rank x)).
Proof.
  intros Hx Hy.
  destruct x as [sx|sx| |sx mx ex], y as [sy|sy| |sy my ey]; try congruence;
    destruct sx, sy; simpl; (eexists; split; [reflexivity|]);
    unfold F64.lt3; simpl;
    try (repeat split; intros; try discriminate; try lia; fail);
    change (PosDef.Pos.compare_cont Eq mx my) with (Pos.compare mx my);
    destruct (Z.compare_spec ex ey); destruct (Pos.compare_spec mx my); simpl;
    repeat split; intros; try discriminate; try reflexivity; try lia.
Qed.

Lemma ltb_rank x y :
  is_nan x = false -> is_nan y = false ->
  (x <? y) = true <-> F64.lt3 (F64.rank (Prim2SF x)) (F64.rank (Prim2SF y)).
Proof.
  rewrite !nan_spec, FloatAxioms.ltb_spec. intros Hx Hy. unfold SFltb.
  destruct (SFcompare_rank _ _ Hx Hy) as (c & -> & HLt & _).
  rewrite <- HLt. destruct c; split; congruence.
Qed.

Lemma leb_rank x y :
  is_nan x = false -> is_nan y = false ->
  (x <=? y) = true <-> ~ F64.lt3 (F64.rank (Prim2SF y)) (F64.rank (Prim2SF x)).
Proof.
  rewrite !nan_spec, FloatAxioms.leb_spec. intros Hx Hy. unfold SFleb.
  destruct (SFcompare_rank _ _ Hx Hy) as (c & -> & _ & HGt).
  rewrite <- HGt. destruct c; split; congruence.
Qed.

Lemma ltb_not_nan x y : (x <? y) = true -> is_nan x = false /\ is_nan y = false.
Proof.
  rewrite FloatAxioms.ltb_spec, !nan_spec. unfold SFltb.
  destruct (Prim2SF x), (Prim2SF y); simpl; try discriminate; split; congruence.
Qed.

Lemma leb_not_nan x y : (x <=? y) = true -> is_nan x = false /\ is_nan y = false.
Proof.
  rewrite FloatAxioms.leb_spec, !nan_spec. unfold SFleb.
  destruct (Prim2SF x), (Prim2SF y); simpl; try discriminate; split; congruence.
Qed.

Lemma ltb_irrefl x : (x <? x) = false.
Proof.
  destruct (x <? x) eqn:E; [|reflexivity].
  destruct (ltb_not_nan _ _ E) as [Hx _].
  apply (ltb_rank _ _ Hx Hx) in E. unfold F64.lt3 in E.
  destruct (F64.rank (Prim2SF x)) as [[a b] c]. lia.
Qed.

Lemma ltb_trans x y z : (x <? y) = true -> (y <? z) = true -> (x <? z) = true.
Proof.
  intros H1 H2.
  destruct (ltb_not_nan _ _ H1) as [Hx Hy]. destruct (ltb_not_nan _ _ H2) as [_ Hz].
  apply (ltb_rank _ _ Hx Hy) in H1. apply (ltb_rank _ _ Hy Hz) in H2.
  apply (ltb_rank _ _ Hx Hz). unfold F64.lt3 in *.
  destruct (F64.rank (Prim2SF x)) as [[a1 a2] a3].
  destruct (F64.rank (Prim2SF y)) as [[b1 b2] b3].
  destruct (F64.rank (Prim2SF z)) as [[c1 c2] c3]. lia.
Qed.

(** Among non-NaN data, "not less" is transitive. *)
Lemma ltb_neg_trans x y z :
  is_nan x = false -> is_nan y = false -> is_nan z = false ->
  (x <? y) = false -> (y <? z) = false -> (x <? z) = false.
Proof.
  intros Hx Hy Hz H1 H2.
  destruct (x <? z) eqn:E; [|reflexivity].
  apply (ltb_rank _ _ Hx Hz) in E.
  assert (N1 : ~ F64.lt3 (F64.rank (Prim2SF x)) (F64.rank (Prim2SF y))).
  { intros C. apply (ltb_rank _ _ Hx Hy) in C. congruence. }
  assert (N2 : ~ F64.lt3 (F64.rank (Prim2SF y)) (F64.rank (Prim2SF z))).
  { intros C. apply (ltb_rank _ _ Hy Hz) in C. congruence. }
  unfold F64.lt3 in *.
  destruct (F64.rank (Prim2SF x)) as [[a1 a2] a3].
  destruct (F64.rank (Prim2SF y)) as [[b1 b2] b3].
  destruct (F64.rank (Prim2SF z)) as [[c1 c2] c3]. lia.
Qed.

(** [x <= y] excludes [x > y]; among non-NaN data the converse holds. *)
Lemma leb_not_gt x y : (x <=? y) = true -> (y <? x) = false.
Proof.
  intros H. destruct (leb_not_nan _ _ H) as [Hx Hy].
  apply (leb_rank _ _ Hx Hy) in H.
  destruct (y <? x) eqn:E; [|reflexivity].
  apply (ltb_rank _ _ Hy Hx) in E. contradiction.
Qed.

Lemma not_gt_leb x y :
  is_nan x = false -> is_nan y = false -> (y <? x) = false -> (x <=? y) = true.
Proof.
  intros Hx Hy H. apply (leb_rank _ _ Hx Hy). intros C.
  apply (ltb_rank _ _ Hy Hx) in C. congruence.
Qed.

Lemma eqb_refl x : is_nan x = false -> (x =? x) = true.
Proof. unfold is_nan. now destruct (x =? x). Qed.

(** A comparison with NaN is false. *)
Lemma ltb_nan_l x : (nan <? x) = false.
Proof. rewrite FloatAxioms.ltb_spec. reflexivity. Qed.

Lemma leb_nan_r x : (x <=? nan) = false.
Proof. rewrite FloatAxioms.leb_spec. unfold SFleb. now destruct (Prim2SF x). Qed.

End F64Facts.

(** ** The haversine distance (C8) *)

Section Haversine.
Context {L : GoLib}.
Local Open Scope float_scope.






Lemma haversine_self (Sin_zero : Sin 0 = 0) (Atan2_zero : Atan2 0 1 = 0) lat lon :
  F64.finite lat = true -> F64.finite lon = true ->
  F64.finite (Cos (toRad lat) * Cos (toRad lat)) = true ->
  haversine lat lon lat lon = 0.
Proof.
  intros Hlat Hlon Hcos. unfold haversine. cbv zeta.
  rewrite (F64Facts.sub_self _ Hlat), (F64Facts.sub_self _ Hlon).
  change (toRad 0 / 2) with 0. rewrite Sin_zero.
  destruct (F64Facts.mul_zero_r _ Hcos) as [s Hs].
  destruct (F64Facts.mul_zero_r _ (F64Facts.zero_finite _ _ Hs)) as [s' Hs'].
  change (0 * 0) with 0.
  rewrite (F64Facts.add_zero_l _ _ Hs').
  change (PrimFloat.sqrt 0) with 0.
  change (PrimFloat.sqrt (1 - 0)) with 1.
  rewrite Atan2_zero. reflexivity.
Qed.

(** The square of the cosine is finite whenever the cosine is a number of
    magnitude at most 1, as [math.Cos] of a finite angle is. *)
Lemma haversine_self_unit_cos (Sin_zero : Sin 0 = 0) (Atan2_zero : Atan2 0 1 = 0) lat lon :
  F64.finite lat = true -> F64.finite lon = true ->
  (abs (Cos (toRad lat)) <=? 1) = true ->
  haversine lat lon lat lon = 0.
Proof.
  intros Hlat Hlon Hc. apply haversine_self; try assumption.
  now apply F64Round.mul_le_one_finite.
Qed.


End Haversine.


(** ** The scoring loop (C1, C10) *)

Section Scoring.
Context {L : GoLib}.
Local Open Scope float_scope.

Lemma getF_insert (m : gmap string float) k v k' :
  getF (<[k := v]> m) k' = if String.eqb k k' then v else getF m k'.
Proof.
  unfold getF. destruct (String.eqb_spec k k') as [->|Hne].
  - now rewrite lookup_insert_eq.
  - now rewrite lookup_insert_ne.
Qed.

Lemma weights_typeWeight ty : getF weights ty = typeWeight ty.
Proof.
  unfold weights, typeWeight. rewrite !getF_insert.
  rewrite !(String.eqb_sym ty).
  destruct (String.eqb_spec "share" ty) as [<-|_]; [reflexivity|].
  destruct (String.eqb_spec "click" ty) as [<-|_]; [reflexivity|].
  destruct (String.eqb_spec "view" ty) as [<-|_]; reflexivity.
Qed.

(** The loop started from any map [m]. *)
Lemma scoreLoop_lookup lat lon radius now evs : forall (m : gmap string float) id,
  fold_left (scoreStep lat lon radius now) evs m !! id =
  match List.filter (kept lat lon radius id) evs with
  | [] => m !! id
  | ks => Some (fold_left (fun acc e => acc + contribution lat lon now e) ks (getF m id))
  end.
Proof.
  induction evs as [|e evs IH]; intros m id; [reflexivity|].
  cbn [fold_left List.filter]. rewrite IH.
  destruct (outside lat lon radius e) eqn:Hout.
  - replace (kept lat lon radius id e) with false
      by (unfold kept; rewrite Hout; now rewrite andb_false_r).
    replace (scoreStep lat lon radius now m e) with m
      by (unfold scoreStep; now rewrite Hout).
    reflexivity.
  - replace (scoreStep lat lon radius now m e)
      with (<[ArticleID e := getF m (ArticleID e) + contribution lat lon now e]> m)
      by (unfold scoreStep; now rewrite Hout).
    destruct (String.eqb_spec (ArticleID e) id) as [Heq|Hne].
    + replace (kept lat lon radius id e) with true
        by (unfold kept; rewrite Hout; subst; now rewrite String.eqb_refl).
      subst id. rewrite getF_insert, String.eqb_refl. cbn [fold_left].
      destruct (List.filter _ evs); [now rewrite lookup_insert_eq | reflexivity].
    + replace (kept lat lon radius id e) with false
        by (unfold kept; apply String.eqb_neq in Hne; now rewrite Hne).
      rewrite lookup_insert_ne by assumption. rewrite getF_insert.
      apply String.eqb_neq in Hne. rewrite Hne. reflexivity.
Qed.

Lemma scoreEvents_lookup lat lon radius now evs id :
  scoreEvents lat lon radius now evs !! id =
  match List.filter (kept lat lon radius id) evs with
  | [] => None
  | ks => Some (fold_left (fun acc e => acc + contribution lat lon now e) ks 0)
  end.
Proof. unfold scoreEvents. now rewrite scoreLoop_lookup. Qed.

(** C1 (amended). The score of a content id is the sum, in snapshot
    order, of [type_weight * exp(-ln 2 * age_hours / 12) * (1 / (1 + d))]
    over exactly the events of that id for which the test [d > radius] is
    false (an id with no such event has no score); the type weights are
    view = 1, click = 2, share = 3; and an event with [d > radius] leaves
    every score unchanged. *)
Theorem C1_score_is_sum_over_events_not_outside
    (lat lon radius : float) (now : time.Time) (evs : list Event) :
  (forall id,
     scoreEvents lat lon radius now evs !! id =
     if existsb (kept lat lon radius id) evs
     then Some (sumContributions lat lon now
                  (fun e => negb (radius <? haversine lat lon (Lat e) (Lon e))) evs id)
     else None) /\
  (forall e,
     contribution lat lon now e =
     typeWeight (Type_ e)
     * Exp (- Ln2 * time.Hours (time.Sub now (Ts e)) / 12)
     * (1 / (1 + haversine lat lon (Lat e) (Lon e)))) /\
  (forall m e,
     (radius <? haversine lat lon (Lat e) (Lon e)) = true ->
     scoreStep lat lon radius now m e = m).
Proof.
  split; [|split].
  - intros id. rewrite scoreEvents_lookup. unfold sumContributions.
    change (fun e => String.eqb (ArticleID e) id
                     && negb (radius <? haversine lat lon (Lat e) (Lon e)))
      with (kept lat lon radius id).
    destruct (existsb (kept lat lon radius id) evs) eqn:Hex.
    + apply existsb_exists in Hex as (e & Hin & Hk).
      destruct (List.filter (kept lat lon radius id) evs) eqn:Hf; [|reflexivity].
      assert (In e (List.filter (kept lat lon radius id) evs))
        by (apply filter_In; auto).
      rewrite Hf in H. contradiction.
    + destruct (List.filter (kept lat lon radius id) evs) as [|e ks] eqn:Hf;
        [reflexivity|].
      assert (Hin : In e (List.filter (kept lat lon radius id) evs))
        by (rewrite Hf; left; reflexivity).
      apply filter_In in Hin as [Hin Hk].
      assert (existsb (kept lat lon radius id) evs = true)
        by (apply existsb_exists; eauto).
      congruence.
  - intros e. unfold contribution. cbv zeta. now rewrite weights_typeWeight.
  - intros m e H. unfold scoreStep, outside. now rewrite H.
Qed.

(** With a NaN radius no event is outside. *)
Lemma outside_nan_radius lat lon e : outside lat lon nan e = false.
Proof. apply F64Facts.ltb_nan_l. Qed.

Lemma scoreLoop_dom lat lon radius now evs : forall (m : gmap string float) id,
  is_Some (m !! id) -> is_Some (fold_left (scoreStep lat lon radius now) evs m !! id).
Proof.
  induction evs as [|e evs IH]; intros m id Hm; [exact Hm|].
  cbn [fold_left]. apply IH. unfold scoreStep.
  destruct (outside lat lon radius e); [exact Hm|].
  destruct (String.eqb_spec (ArticleID e) id) as [->|Hne].
  - rewrite lookup_insert_eq. eauto.
  - now rewrite lookup_insert_ne.
Qed.

(** An event that is not skipped puts its article id in the score map. *)
Lemma scoreEvents_inserts lat lon radius now evs e :
  In e evs -> outside lat lon radius e = false ->
  is_Some (scoreEvents lat lon radius now evs !! ArticleID e).
Proof.
  intros Hin Hout. rewrite scoreEvents_lookup.
  destruct (List.filter _ evs) eqn:Hf; [|eauto].
  assert (In e (List.filter (kept lat lon radius (ArticleID e)) evs)).
  { apply filter_In. split; [assumption|]. unfold kept.
    now rewrite String.eqb_refl, Hout. }
  rewrite Hf in H. contradiction.
Qed.

End Scoring.

(** C1, as stated, fails for a NaN radius (a value the HTTP layer passes
    on: [strconv.ParseFloat] accepts "NaN"): [d > NaN] is false, so the one
    view at the query point is counted and the article scores 1, while no
    event satisfies [d <= NaN] and the claimed sum is 0. *)
Lemma C1_counterexample_nan_radius :
  getF (scoreEvents (L := Ref.lib) 10 20 nan Ex.t0 [Ex.viewNow]) "a1" = 1%float /\
  scoreAsClaimed (L := Ref.lib) 10 20 nan Ex.t0 [Ex.viewNow] "a1" = 0%float /\
  (getF (scoreEvents (L := Ref.lib) 10 20 nan Ex.t0 [Ex.viewNow]) "a1"
   =? scoreAsClaimed (L := Ref.lib) 10 20 nan Ex.t0 [Ex.viewNow] "a1")%float = false.
Proof. repeat split; vm_compute; reflexivity. Qed.

(** ** The content resolver (C6) *)

Lemma getB_mkIdset_from ids : forall (m : gmap string bool) k,
  getB (fold_left (fun m id => <[id := true]> m) ids m) k
  = existsb (String.eqb k) ids || getB m k.
Proof.
  induction ids as [|id ids IH]; intros m k; [reflexivity|].
  cbn [fold_left existsb]. rewrite IH. unfold getB.
  destruct (String.eqb_spec k id) as [->|Hne].
  - rewrite lookup_insert_eq. cbn. now rewrite orb_true_r.
  - rewrite lookup_insert_ne by congruence. reflexivity.
Qed.

Lemma getB_mkIdset ids k : getB (mkIdset ids) k = existsb (String.eqb k) ids.
Proof. unfold mkIdset. rewrite getB_mkIdset_from. apply orb_false_r. Qed.

Lemma loadArticlesByIDs_filter w ids :
  loadArticlesByIDs w ids = List.filter (memberOf ids) (answering w).
Proof.
  unfold loadArticlesByIDs, answering, LoadAllArticlesFromDB, LoadNewsDataFromFile, memberOf.
  destruct (dbArticles w) as [l|e].
  - apply filter_ext. intros a. apply getB_mkIdset.
  - destruct (fileArticles w "data/news_data.json") as [l|e'].
    + apply filter_ext. intros a. apply getB_mkIdset.
    + reflexivity.
Qed.

Lemma memberOf_In ids a : memberOf ids a = true <-> In (models.ID a) ids.
Proof.
  unfold memberOf. rewrite existsb_exists. split.
  - intros (id & Hin & Heq). apply String.eqb_eq in Heq. now subst.
  - intros Hin. exists (models.ID a). split; [assumption | apply String.eqb_refl].
Qed.

(** C6. The resolver returns only articles whose id is in the given set,
    namely the members found in the primary store; when the primary read
    fails, the members found in the bundled file (the same filter); and
    the empty list, with no error to propagate, when both reads fail. *)
Theorem C6_resolver_filters_and_falls_back (w : World) (ids : list string) :
  Forall (fun a => In (models.ID a) ids) (loadArticlesByIDs w ids) /\
  (forall l, dbArticles w = Ok l ->
     loadArticlesByIDs w ids = List.filter (memberOf ids) l) /\
  (forall e l, dbArticles w = Err e ->
     fileArticles w "data/news_data.json" = Ok l ->
     loadArticlesByIDs w ids = List.filter (memberOf ids) l) /\
  (forall e e', dbArticles w = Err e ->
     fileArticles w "data/news_data.json" = Err e' ->
     loadArticlesByIDs w ids = []).
Proof.
  rewrite loadArticlesByIDs_filter. repeat split.
  - apply List.Forall_forall. intros a Ha. apply filter_In in Ha as [_ Ha].
    now apply memberOf_In.
  - intros l H. unfold answering. now rewrite H.
  - intros e l H1 H2. unfold answering. now rewrite H1, H2.
  - intros e e' H1 H2. unfold answering. now rewrite H1, H2.
Qed.


(** ** Sorting *)

Lemma StronglySorted_snoc {A : Type} (R : A -> A -> Prop) l a :
  StronglySorted R l -> Forall (fun y => R y a) l -> StronglySorted R (l ++ [a]).
Proof.
  induction 1 as [|b l Hl IH Hb]; intros Hall; cbn.
  - constructor; constructor.
  - apply List.Forall_cons_iff in Hall as [Hba Hall].
    constructor; [now apply IH|].
    apply List.Forall_app. split; [assumption | constructor; [assumption | constructor]].
Qed.

Lemma StronglySorted_rev_flip {A : Type} (R : A -> A -> Prop) l :
  StronglySorted R l -> StronglySorted (fun x y => R y x) (rev l).
Proof.
  induction 1 as [|a l Hl IH Ha]; cbn; [constructor|].
  apply StronglySorted_snoc; [assumption|].
  apply List.Forall_forall. intros y Hy. apply List.in_rev in Hy.
  eapply List.Forall_forall in Ha; eassumption.
Qed.

Lemma StronglySorted_weaken {A : Type} (R R' : A -> A -> Prop) (P : A -> Prop) l :
  (forall x y, P x -> P y -> R x y -> R' x y) ->
  Forall P l -> StronglySorted R l -> StronglySorted R' l.
Proof.
  intros HR HP. induction 1 as [|a l Hl IH Ha]; [constructor|].
  apply List.Forall_cons_iff in HP as [Pa HP].
  constructor; [now apply IH|].
  apply List.Forall_forall. intros y Hy.
  apply HR; [assumption | eapply List.Forall_forall in HP; eassumption
            | eapply List.Forall_forall in Ha; eassumption].
Qed.


(** *** The reference insertion sort meets the contract of [sort.Slice] *)

Section InsertionSort.
Context {A : Type} (less : A -> A -> bool).

Lemma insertBack_perm x l : Permutation (x :: l) (Ref.insertBack less x l).
Proof.
  induction l as [|y r IH]; cbn; [reflexivity|].
  destruct (less x y); [|reflexivity].
  rewrite perm_swap. now apply perm_skip.
Qed.

Lemma insertion_fold_perm l : forall acc,
  Permutation (l ++ acc) (fold_left (fun acc x => Ref.insertBack less x acc) l acc).
Proof.
  induction l as [|x l IH]; intros acc; cbn; [reflexivity|].
  rewrite <- IH. rewrite <- insertBack_perm.
  now rewrite Permutation_middle.
Qed.

Lemma insertionSort_perm l : Permutation l (Ref.insertionSort l less).
Proof.
  unfold Ref.insertionSort. rewrite <- Permutation_rev.
  rewrite <- insertion_fold_perm. now rewrite app_nil_r.
Qed.

(** [less] is a strict weak order on the elements satisfying [S]. *)
Variable S : A -> Prop.
Hypothesis irrefl : forall x, S x -> less x x = false.
Hypothesis trans : forall x y z, S x -> S y -> S z ->
  less x y = true -> less y z = true -> less x z = true.
Hypothesis negtrans : forall x y z, S x -> S y -> S z ->
  less x y = false -> less y z = false -> less x z = false.

Lemma less_asym x y : S x -> S y -> less x y = true -> less y x = false.
Proof.
  intros Sx Sy H. destruct (less y x) eqn:E; [|reflexivity].
  rewrite <- (irrefl x Sx). symmetry. now apply (trans x y x).
Qed.

(** The reversed prefix stays ordered: nothing in it is less than what
    follows it there. *)
Lemma insertBack_sorted x l :
  S x -> Forall S l ->
  StronglySorted (fun p q => less p q = false) l ->
  StronglySorted (fun p q => less p q = false) (Ref.insertBack less x l).
Proof.
  intros Sx Sl Hl. induction Hl as [|y r Hr IH Hy]; cbn.
  - constructor; constructor.
  - apply List.Forall_cons_iff in Sl as [Sy Sr].
    destruct (less x y) eqn:E.
    + constructor; [now apply IH|].
      eapply Permutation_Forall; [apply insertBack_perm|].
      constructor; [now apply less_asym | assumption].
    + constructor; [now constructor|].
      constructor; [assumption|].
      apply List.Forall_forall. intros z Hz.
      apply (negtrans x y z); try assumption.
      * eapply List.Forall_forall in Sr; eassumption.
      * eapply List.Forall_forall in Hy; eassumption.
Qed.

Lemma insertion_fold_sorted l : forall acc,
  Forall S l -> Forall S acc ->
  StronglySorted (fun p q => less p q = false) acc ->
  StronglySorted (fun p q => less p q = false)
    (fold_left (fun acc x => Ref.insertBack less x acc) l acc).
Proof.
  induction l as [|x l IH]; intros acc Sl Sacc Hacc; cbn; [assumption|].
  apply List.Forall_cons_iff in Sl as [Sx Sl].
  apply IH; [assumption | | now apply insertBack_sorted].
  eapply Permutation_Forall; [apply insertBack_perm|]. now constructor.
Qed.

Lemma insertionSort_sorted l :
  Forall S l ->
  StronglySorted (fun x y => less y x = false) (Ref.insertionSort l less).
Proof.
  intros Sl. unfold Ref.insertionSort.
  apply (StronglySorted_rev_flip (fun p q => less p q = false)).
  apply insertion_fold_sorted; [assumption | constructor | constructor].
Qed.

End InsertionSort.

Lemma Ref_sortContract : sortContract Ref.lib.
Proof.
  intros l less. split; [apply insertionSort_perm|].
  intros (Hi & Ht & Hn).
  apply (insertionSort_sorted less (fun x => In x l)); auto.
  apply List.Forall_forall. auto.
Qed.


(** ** [GetTrendingForLocation]: cache probe, ranking and truncation *)

Lemma Since_fresh now t :
  (time.Since now t <? 60 * time.Second) = true <-> now - t < 60 * time.Second.
Proof.
  unfold time.Since, time.Sub, time.minDuration, time.maxDuration, time.Second.
  rewrite Z.ltb_lt. lia.
Qed.


Lemma topLimit_negative (items : list trendingItem) limit :
  limit < 0 -> topLimit items limit = Panics.
Proof.
  intros Hl. unfold topLimit, sliceTo.
  destruct (Z.ltb_spec limit (Z.of_nat (length items))) as [Hlt|Hge]; [|lia].
  destruct (Z.ltb_spec limit 0); [reflexivity | lia].
Qed.

Section Cache.
Context {L : GoLib}.


(** C2. A call either recomputes the ranking (and stores it with the
    time of the store) or answers from the entry under its key, and then
    that entry was written less than 60 seconds before the read; an entry
    that is 60 seconds old or older makes the call recompute. *)
Theorem C2_stale_entry_never_served
    (st : State) (env : Env) (lat lon radius : float) (limit : Z) :
  (GetTrendingForLocation st env lat lon radius limit
     = recompute st env lat lon radius limit \/
   exists e, cache st !! cacheKey lat lon radius = Some e /\
             tSince env - At e < 60 * time.Second /\
             GetTrendingForLocation st env lat lon radius limit
             = (topLimit (Result e) limit, st)) /\
  (forall e, cache st !! cacheKey lat lon radius = Some e ->
             60 * time.Second <= tSince env - At e ->
             GetTrendingForLocation st env lat lon radius limit
             = recompute st env lat lon radius limit) /\
  cache (snd (recompute st env lat lon radius limit)) !! cacheKey lat lon radius
  = Some {| At := tStore env; Result := computeTrending st env lat lon radius |}.
Proof.
  repeat split.
  - unfold GetTrendingForLocation.
    destruct (cache st !! cacheKey lat lon radius) as [e|] eqn:He; [|now left].
    destruct (time.Since (tSince env) (At e) <? 60 * time.Second) eqn:Hf; [|now left].
    right. exists e. apply Since_fresh in Hf. auto.
  - intros e He Hold. unfold GetTrendingForLocation. rewrite He.
    destruct (time.Since (tSince env) (At e) <? 60 * time.Second) eqn:Hf; [|reflexivity].
    apply Since_fresh in Hf. lia.
  - unfold recompute. cbn. now rewrite lookup_insert_eq.
Qed.

(** *** The ranking is sorted *)




End Cache.

Section Ranking.
Context {L : GoLib}.






End Ranking.








(** ** Events of an unknown type (C10) *)

Section UnknownType.
Context {L : GoLib}.
Local Open Scope float_scope.

Lemma ids_of_scoreMap (m : gmap string float) k :
  In k (map_to_list m).*1 <-> is_Some (m !! k).
Proof.
  rewrite <- list_elem_of_In, list_elem_of_fmap. split.
  - intros ([k' s] & -> & H). apply elem_of_map_to_list in H. cbn. eauto.
  - intros [s H]. exists (k, s). split; [reflexivity|]. now apply elem_of_map_to_list.
Qed.

(** Every article of the answering source whose id was scored is in the
    ranking, with the score of its id. *)
Lemma computeTrending_includes st env lat lon radius a :
  (forall l less, Permutation l (sortSlice l less)) ->
  In a (answering (world env)) ->
  is_Some (scoreEvents lat lon radius (tNow env) (events st) !! models.ID a) ->
  In {| Article := a;
        Score := getF (scoreEvents lat lon radius (tNow env) (events st)) (models.ID a) |}
     (computeTrending st env lat lon radius).
Proof.
  intros Hperm Ha Hs. unfold computeTrending. cbv zeta.
  eapply Permutation_in; [apply Hperm|].
  apply (in_map (fun a0 => {| Article := a0;
     Score := getF (scoreEvents lat lon radius (tNow env) (events st)) (models.ID a0) |})).
  apply ids_of_scoreMap in Hs.
  destruct (Z.ltb_spec 0 (Z.of_nat (length (map_to_list
              (scoreEvents lat lon radius (tNow env) (events st))).*1))) as [_|Hlen].
  - rewrite loadArticlesByIDs_filter. apply filter_In. split; [assumption|].
    now apply memberOf_In.
  - destruct ((map_to_list (scoreEvents lat lon radius (tNow env) (events st))).*1);
      [contradiction | cbn in Hlen; lia].
Qed.

(** C10. An event whose type is none of view, click and share and whose
    distance is within the radius has type weight 0, yet its article id
    enters the score map; an article of that id known to the answering
    source is therefore in the computed ranking; and when this is the only
    event counted for the id and its decay and proximity factors are
    finite, the score it gets is 0. *)
Theorem C10_unknown_type_is_ranked_with_weight_zero
    (Hperm : forall l less, Permutation l (sortSlice l less))
    (st : State) (env : Env) (lat lon radius : float) (e : Event) :
  In e (events st) ->
  Type_ e <> "view" -> Type_ e <> "click" -> Type_ e <> "share" ->
  (haversine lat lon (Lat e) (Lon e) <=? radius) = true ->
  getF weights (Type_ e) = 0 /\
  is_Some (scoreEvents lat lon radius (tNow env) (events st) !! ArticleID e) /\
  (forall a, In a (answering (world env)) -> models.ID a = ArticleID e ->
     In {| Article := a;
           Score := getF (scoreEvents lat lon radius (tNow env) (events st)) (ArticleID e) |}
        (computeTrending st env lat lon radius)) /\
  (List.filter (kept lat lon radius (ArticleID e)) (events st) = [e] ->
   F64.finite (Exp (- Ln2 * time.Hours (time.Sub (tNow env) (Ts e)) / 12)) = true ->
   F64.finite (1 / (1 + haversine lat lon (Lat e) (Lon e))) = true ->
   scoreEvents lat lon radius (tNow env) (events st) !! ArticleID e = Some 0).
Proof.
  intros Hin Hv Hc Hs Hd.
  assert (Hw : getF weights (Type_ e) = 0).
  { rewrite weights_typeWeight. unfold typeWeight.
    apply String.eqb_neq in Hv, Hc, Hs. now rewrite Hv, Hc, Hs. }
  assert (Hout : outside lat lon radius e = false)
    by (apply F64Facts.leb_not_gt; exact Hd).
  assert (Hsome : is_Some (scoreEvents lat lon radius (tNow env) (events st) !! ArticleID e))
    by (now apply scoreEvents_inserts).
  repeat split; try assumption.
  - intros a Ha Hid. rewrite <- Hid in *. now apply computeTrending_includes.
  - intros Hone Hdecay Hprox. rewrite scoreEvents_lookup, Hone. cbn [fold_left].
    f_equal. unfold contribution. cbv zeta. rewrite Hw.
    destruct (F64Facts.zero_mul 0 _ false eq_refl Hdecay) as [s1 H1].
    destruct (F64Facts.zero_mul _ _ s1 H1 Hprox) as [s2 H2].
    exact (F64Facts.add_zero_l _ _ H2).
Qed.

End UnknownType.

(** C10 on a store whose only event is a "like" of article a1 at the query
    point: the call returns a1 with score 0. *)
Lemma C10_unknown_type_witness :
  is_Some (scoreEvents (L := Ref.lib) 10 20 1 Ex.t0 [Ex.likeNow] !! "a1") /\
  fst (GetTrendingForLocation (L := Ref.lib) Ex2.oneLike (Ex.envAt Ex.t0) 10 20 1 5)
  = Returns ([{| Article := Ex.a1; Score := 0 |}], None).
Proof.
  destruct (C10_unknown_type_is_ranked_with_weight_zero (L := Ref.lib)
              (fun l less => proj1 (Ref_sortContract l less))
              Ex2.oneLike (Ex.envAt Ex.t0) 10 20 1 Ex.likeNow)
    as (_ & Hsome & _ & _).
  - left. reflexivity.
  - discriminate.
  - discriminate.
  - discriminate.
  - vm_compute. reflexivity.
  - split; [exact Hsome|]. vm_compute. reflexivity.
Defined.

(** ** The event simulator (C7) *)

Section SimulatorFacts.
Context {R : RandSource}.
Hypothesis HR : randContract R.

Lemma index_in_range {A : Type} (s : list A) i :
  0 <= i < Z.of_nat (length s) -> exists x, index s i = Returns x /\ In x s.
Proof.
  intros Hi. unfold index. destruct (Z.ltb_spec i 0); [lia|].
  destruct (lookup_lt_is_Some_2 s (Z.to_nat i)) as [x Hx]; [lia|].
  rewrite Hx. exists x. split; [reflexivity|].
  apply list_elem_of_In. eapply list_elem_of_lookup_2. eassumption.
Qed.

Lemma genEvent_ok articles now rnd :
  articles <> [] ->
  exists e rnd', genEvent articles now rnd = Returns (e, rnd') /\
                 simulatedFrom articles now e.
Proof.
  intros Hne. destruct HR as [HI HF]. unfold genEvent.
  assert (Hlen : 0 < Z.of_nat (length articles))
    by (destruct articles; [congruence | cbn; lia]).
  pose proof (HI rnd _ Hlen) as Hi.
  destruct (Intn rnd (Z.of_nat (length articles))) as [i rnd1]. cbn in Hi.
  destruct (index_in_range articles i Hi) as (a & -> & Ha).
  pose proof (HF rnd1) as [Hu0 Hu1].
  destruct (Float64 rnd1) as [u rnd2]. cbn in Hu0, Hu1.
  pose proof (HF rnd2) as [Hv0 Hv1].
  destruct (Float64 rnd2) as [v rnd3]. cbn in Hv0, Hv1.
  pose proof (HI rnd3 (48 * 60) ltac:(lia)) as Hm.
  destruct (Intn rnd3 (48 * 60)) as [m rnd4]. cbn in Hm.
  pose proof (HI rnd4 (Z.of_nat (length types)) ltac:(reflexivity)) as Hk.
  destruct (Intn rnd4 (Z.of_nat (length types))) as [k rnd5]. cbn [fst] in Hk.
  destruct (index_in_range types k Hk) as (ty & -> & Hty).
  eexists _, _. split; [reflexivity|].
  exists a, u, v. cbn [ArticleID Lat Lon Type_ Ts].
  repeat split; try assumption.
  - unfold time.Add, time.Hour, time.Minute, time.Second in *. lia.
  - unfold time.Add, time.Minute, time.Second in *. lia.
Qed.

Lemma genLoop_ok articles now n : forall rnd evs,
  articles <> [] ->
  exists new, genLoop n articles now rnd evs = Returns (evs ++ new)%list /\
              length new = n /\ Forall (simulatedFrom articles now) new.
Proof.
  induction n as [|n IH]; intros rnd evs Hne; cbn [genLoop].
  - exists []. rewrite app_nil_r. repeat split. constructor.
  - destruct (genEvent_ok articles now rnd Hne) as (e & rnd' & -> & He).
    destruct (IH rnd' (evs ++ [e])%list Hne) as (new & -> & Hlen & Hall).
    exists (e :: new). rewrite <- app_assoc. cbn. repeat split.
    + now rewrite Hlen.
    + now constructor.
Qed.


End SimulatorFacts.

Lemma Ref_randContract : randContract Ref.rand.
Proof.
  split.
  - intros s n Hn. cbn. apply Z.mod_pos_bound. assumption.
  - intros s. cbn.
    pose proof (Z.mod_pos_bound (s / 2 ^ 33) 8 ltac:(lia)) as Hk.
    assert (Hc : In ((s / 2 ^ 33) mod 8) [0; 1; 2; 3; 4; 5; 6; 7]) by (cbn; lia).
    generalize dependent ((s / 2 ^ 33) mod 8). intros k _ Hc.
    cbn in Hc. decompose [or] Hc; subst; try contradiction; split; reflexivity.
Qed.



(** ** The event store under its lock (C9) *)

Module ConcFacts.
Import Conc.
Local Open Scope nat_scope.

Lemma total_cons f a l : total f (a :: l) = f a + total f l.
Proof. reflexivity. Qed.

Lemma total_insert f l : forall i t t',
  l !! i = Some t -> total f (<[i := t']> l) + f t = total f l + f t'.
Proof.
  induction l as [|a l IH]; intros [|i] t t' H; try discriminate.
  - injection H as ->. change (<[0 := t']> (t :: l)) with (t' :: l).
    rewrite !total_cons. clear IH. lia.
  - change (<[S i := t']> (a :: l)) with (a :: <[i := t']> l).
    rewrite !total_cons. specialize (IH i t t' H). lia.
Qed.

Lemma total_ge f l : forall i t, l !! i = Some t -> f t <= total f l.
Proof.
  induction l as [|a l IH]; intros [|i] t H; try discriminate; rewrite total_cons.
  - injection H as ->. clear IH. lia.
  - specialize (IH i t H). lia.
Qed.

(** When one goroutine accounts for the whole count, the others count 0. *)
Lemma total_unique f l : forall i t j t',
  l !! i = Some t -> total f l = f t -> j <> i -> l !! j = Some t' -> f t' = 0.
Proof.
  induction l as [|a l IH]; intros [|i] t [|j] t' Hi Htot Hne Hj;
    try discriminate; try congruence; rewrite total_cons in Htot.
  - injection Hi as ->. pose proof (total_ge f l j t' Hj). clear IH. lia.
  - injection Hj as ->. pose proof (total_ge f l i t Hi). clear IH. lia.
  - pose proof (total_ge f l i t Hi).
    apply (IH i t j t'); try assumption; lia.
Qed.

Lemma total_zero f l j t : total f l = 0 -> l !! j = Some t -> f t = 0.
Proof. intros H0 Hj. pose proof (total_ge f l j t Hj). lia. Qed.

Section Invariant.
Variable C : list Event -> Prop.

(** A goroutine that neither holds the lock nor moves is unaffected by a
    change of [events]. *)
Lemma threadOk_unheld es es' t :
  holdsR t = 0 -> holdsW t = 0 -> threadOk C es t -> threadOk C es' t.
Proof.
  destruct t as [new [| |todo|]|[| |n|snap|snap]]; cbn; intros; try discriminate; assumption.
Qed.

Lemma copyInto_all (l : list Event) : copyInto (length l) l = l.
Proof.
  unfold copyInto. rewrite take_ge by lia. rewrite Nat.sub_diag. cbn.
  apply app_nil_r.
Qed.

Lemma inv_step s s' : inv C s -> step s s' -> inv C s'.
Proof.
  intros (HR & HW & Hex & Hwhole & Hok) Hstep.
  destruct Hstep as [s i t sh' t' Hi Ht].
  pose proof (Hok i t Hi) as Hti.
  pose proof (total_insert holdsR (threads s) i t t' Hi) as HRi.
  pose proof (total_insert holdsW (threads s) i t t' Hi) as HWi.
  pose proof (total_ge holdsR (threads s) i t Hi) as HRge.
  pose proof (total_ge holdsW (threads s) i t Hi) as HWge.
  assert (Hlook : forall j u, <[i := t']> (threads s) !! j = Some u ->
                    (j = i /\ u = t') \/ (j <> i /\ threads s !! j = Some u)).
  { intros j u H. apply list_lookup_insert_Some in H as [(-> & -> & _)|[Hne H]]; auto. }
  unfold inv. cbn [shared threads].
  destruct Ht; cbn [evs writing readers holdsR holdsW threadOk] in *;
    destruct (writing sh) eqn:Hw; cbn [Nat.b2n] in *;
    try (specialize (Hex eq_refl)); try discriminate; try (exfalso; lia);
    (split; [lia|]); (split; [lia|]); (split; [intros; first [discriminate | lia]|]);
    (split; [intros; first [discriminate | auto]|]).
  - (* Lock *)
    intros j u Hj. destruct (Hlook j u Hj) as [[-> ->]|[Hne Hu]]; cbn; eauto.
  - (* events = []Event{} *)
    intros j u Hj. destruct (Hlook j u Hj) as [[-> ->]|[Hne Hu]]; cbn; eauto.
    apply (threadOk_unheld (evs sh)); [ | | eauto].
    + eapply total_zero; [|eassumption]. lia.
    + eapply (total_unique holdsW); [exact Hi | cbn; lia | exact Hne | exact Hu].
  - (* append *)
    destruct Hti as [Hnew Hcat].
    intros j u Hj. destruct (Hlook j u Hj) as [[-> ->]|[Hne Hu]]; cbn.
    + split; [assumption|]. rewrite <- Hcat, <- app_assoc. reflexivity.
    + apply (threadOk_unheld (evs sh)); [ | | eauto].
      * eapply total_zero; [|eassumption]. lia.
      * eapply (total_unique holdsW); [exact Hi | cbn; lia | exact Hne | exact Hu].
  - (* Unlock: the store is now the writer's whole collection *)
    destruct Hti as [Hnew Hcat]. rewrite app_nil_r in Hcat. now rewrite Hcat.
  - (* Unlock *)
    intros j u Hj. destruct (Hlook j u Hj) as [[-> ->]|[Hne Hu]]; cbn; eauto.
    now destruct Hti.
  - (* RLock *)
    intros j u Hj. destruct (Hlook j u Hj) as [[-> ->]|[Hne Hu]]; cbn; eauto.
  - (* make *)
    intros j u Hj. destruct (Hlook j u Hj) as [[-> ->]|[Hne Hu]]; cbn; eauto.
  - (* copy *)
    intros j u Hj. destruct (Hlook j u Hj) as [[-> ->]|[Hne Hu]]; cbn; eauto.
    subst n. rewrite copyInto_all. auto.
  - (* RUnlock *)
    intros j u Hj. destruct (Hlook j u Hj) as [[-> ->]|[Hne Hu]]; cbn; eauto.
Qed.

End Invariant.

Lemma total_idle f l :
  (forall t, idle t -> f t = 0) -> Forall idle l -> total f l = 0.
Proof.
  intros Hf. induction 1 as [|t l Ht _ IH]; [reflexivity|].
  rewrite total_cons, (Hf t Ht), IH. reflexivity.
Qed.

Lemma inv_init old ts : Forall idle ts -> inv (whole old ts) (init old ts).
Proof.
  intros Hidle. unfold inv, init. cbn [shared threads evs writing readers Nat.b2n].
  split; [|split; [|split; [|split]]].
  - symmetry. apply total_idle; [|assumption].
    intros [new [| | |]|[| | | |]]; cbn; intros; try contradiction; reflexivity.
  - symmetry. apply total_idle; [|assumption].
    intros [new [| | |]|[| | | |]]; cbn; intros; try contradiction; reflexivity.
  - discriminate.
  - intros _. now left.
  - intros i t Hi. pose proof (proj1 (Forall_lookup _ _) Hidle i t Hi) as Ht.
    destruct t as [new [| |todo|]|[| |n|snap|snap]]; cbn in *; try contradiction; auto.
    right. eauto.
Qed.

Lemma inv_reachable old ts s :
  Forall idle ts -> rtc step (init old ts) s -> inv (whole old ts) s.
Proof.
  intros Hidle Hrtc.
  eapply (rtc_ind_r (fun s => inv (whole old ts) s)); [ | | exact Hrtc].
  - now apply inv_init.
  - intros y z _ Hstep IH. eapply inv_step; eassumption.
Qed.

(** C9. In every interleaving of simulator runs and snapshots that starts
    with the mutex free: a writer and a reader never hold the mutex
    together; whenever no writer holds it the store is a whole collection
    (the initial one, or all the events of one run); and every snapshot a
    reader has copied is such a whole collection, never part of one. *)
Theorem C9_snapshot_never_partial
    (old : list Event) (ts : list thread) (s : Sys) :
  Forall idle ts ->
  rtc step (init old ts) s ->
  (writing (shared s) = true -> readers (shared s) = 0) /\
  (writing (shared s) = false -> whole old ts (evs (shared s))) /\
  (forall i t snap, threads s !! i = Some t -> snapshotOf t = Some snap ->
     whole old ts snap).
Proof.
  intros Hidle Hrtc.
  destruct (inv_reachable old ts s Hidle Hrtc) as (_ & _ & Hex & Hwhole & Hok).
  repeat split; try assumption.
  intros i t snap Hi Hsnap. specialize (Hok i t Hi).
  destruct t as [new pc|[| |n|sn|sn]]; cbn in *; try discriminate;
    injection Hsnap as <-; exact Hok.
Qed.

End ConcFacts.

(** One goroutine [i] takes its next step. *)
Ltac run i :=
  eapply rtc_l;
  [ eapply (Conc.step_at _ i); [reflexivity | econstructor; reflexivity] | cbn ].

Lemma Ex3_final_reachable : rtc Conc.step (Conc.init Ex3.old Ex3.goroutines) Ex3.final.
Proof.
  unfold Conc.init, Ex3.goroutines, Ex3.new.
  run 0%nat. run 0%nat. run 0%nat. run 0%nat. run 0%nat.
  run 1%nat. run 1%nat. run 1%nat. run 1%nat.
  apply rtc_refl.
Qed.

(** C9 on one simulator run followed by one snapshot: the snapshot is the
    run's whole collection. *)
Lemma C9_snapshot_witness :
  Conc.whole Ex3.old Ex3.goroutines Ex3.new.
Proof.
  destruct (ConcFacts.C9_snapshot_never_partial Ex3.old Ex3.goroutines Ex3.final)
    as (_ & _ & H).
  - repeat constructor.
  - exact Ex3_final_reachable.
  - apply (H 1%nat (Conc.Reader (Conc.RDone Ex3.new))); reflexivity.
Defined.

(* ===================================================================== *)
(** * Part III: further properties of the code                            *)
(* ===================================================================== *)

(** ** The scoring loop, beyond the claims *)

Section ScoringMore.
Context {L : GoLib}.

(** X1. An article id has an entry in the score map exactly when some
    event of the snapshot carries that id and is not skipped by the
    test [d > radius]: ids never enter the map any other way. *)
Theorem X1_score_map_domain
    (lat lon radius : float) (now : time.Time) (evs : list Event) (id : string) :
  is_Some (scoreEvents lat lon radius now evs !! id) <->
  exists e, In e evs /\ ArticleID e = id /\ outside lat lon radius e = false.
Proof.
  rewrite scoreEvents_lookup. split.
  - destruct (List.filter (kept lat lon radius id) evs) as [|e ks] eqn:Hf.
    + intros [x Hx]. discriminate Hx.
    + intros _. assert (Hin : In e (List.filter (kept lat lon radius id) evs))
        by (rewrite Hf; now left).
      apply filter_In in Hin as [Hin Hk]. unfold kept in Hk.
      apply andb_true_iff in Hk as [Hid Hout].
      exists e. repeat split; [assumption | now apply String.eqb_eq |].
      now destruct (outside lat lon radius e).
  - intros (e & Hin & Hid & Hout).
    assert (Hk : In e (List.filter (kept lat lon radius id) evs)).
    { apply filter_In. split; [assumption|]. unfold kept.
      rewrite Hout. subst id. now rewrite String.eqb_refl. }
    destruct (List.filter (kept lat lon radius id) evs); [contradiction | eauto].
Qed.

Lemma filter_kept_same_id lat lon radius id evs :
  List.filter (kept lat lon radius id)
    (List.filter (fun e => String.eqb (ArticleID e) id) evs)
  = List.filter (kept lat lon radius id) evs.
Proof.
  induction evs as [|e evs IH]; [reflexivity|]. cbn [List.filter].
  destruct (String.eqb (ArticleID e) id) eqn:Hid; cbn [List.filter].
  - now rewrite IH.
  - unfold kept at 2. rewrite Hid. cbn. exact IH.
Qed.

(** X2. The score of an article depends only on the events of that
    article: dropping every other event from the snapshot leaves it
    unchanged. *)
Theorem X2_score_ignores_other_articles
    (lat lon radius : float) (now : time.Time) (evs : list Event) (id : string) :
  scoreEvents lat lon radius now evs !! id =
  scoreEvents lat lon radius now
    (List.filter (fun e => String.eqb (ArticleID e) id) evs) !! id.
Proof. rewrite !scoreEvents_lookup. now rewrite filter_kept_same_id. Qed.

(** X3. A call never changes the event store, changes no cache entry
    other than the one under its own key, and the state it leaves does not
    depend on the limit: the cache always receives the full list. *)
Theorem X3_call_frame
    (st : State) (env : Env) (lat lon radius : float) (limit limit' : Z) :
  events (snd (GetTrendingForLocation st env lat lon radius limit)) = events st /\
  (forall k, k <> cacheKey lat lon radius ->
     cache (snd (GetTrendingForLocation st env lat lon radius limit)) !! k
     = cache st !! k) /\
  snd (GetTrendingForLocation st env lat lon radius limit)
  = snd (GetTrendingForLocation st env lat lon radius limit').
Proof.
  unfold GetTrendingForLocation, recompute.
  destruct (cache st !! cacheKey lat lon radius) as [e|];
    [destruct (time.Since (tSince env) (At e) <? 60 * time.Second)|];
    cbn [fst snd events cache]; repeat split; try reflexivity;
    intros k Hk; now rewrite lookup_insert_ne.
Qed.

Lemma memberOf_scored (m : gmap string float) a :
  memberOf (map_to_list m).*1 a = scoredIn m a.
Proof.
  unfold scoredIn. destruct (memberOf (map_to_list m).*1 a) eqn:E.
  - apply memberOf_In, ids_of_scoreMap in E as [s ->]. reflexivity.
  - destruct (m !! models.ID a) as [s|] eqn:Hs; [|reflexivity].
    assert (memberOf (map_to_list m).*1 a = true)
      by (apply memberOf_In, ids_of_scoreMap; eauto).
    congruence.
Qed.

(** X4. The computed ranking is, up to order, exactly the articles of
    the answering source whose id has a score, each with the score of its
    id: no article is invented, none with a score is dropped, and an
    article the source holds twice is ranked twice. *)
Theorem X4_ranking_is_the_scored_articles
    (Hperm : forall l less, Permutation l (sortSlice l less))
    (st : State) (env : Env) (lat lon radius : float) :
  Permutation
    (computeTrending st env lat lon radius)
    (map (fun a => {| Article := a;
                      Score := getF (scoreEvents lat lon radius (tNow env) (events st))
                                 (models.ID a) |})
         (List.filter (scoredIn (scoreEvents lat lon radius (tNow env) (events st)))
            (answering (world env)))).
Proof.
  unfold computeTrending. cbv zeta. rewrite <- Hperm.
  set (m := scoreEvents lat lon radius (tNow env) (events st)).
  destruct (Z.ltb_spec 0 (Z.of_nat (length (map_to_list m).*1))) as [_|Hlen].
  - rewrite loadArticlesByIDs_filter.
    rewrite (filter_ext _ _ (memberOf_scored m)). reflexivity.
  - assert (Hnil : (map_to_list m).*1 = [])
      by (destruct ((map_to_list m).*1); [reflexivity | cbn in Hlen; lia]).
    rewrite <- (filter_ext _ _ (memberOf_scored m)), Hnil.
    replace (List.filter (memberOf []) (answering (world env))) with (@nil models.Article);
      [reflexivity|].
    induction (answering (world env)) as [|a l IH]; [reflexivity | exact IH].
Qed.

End ScoringMore.

(** X4 on the store with two views and the reference library. *)
Lemma X4_ranking_witness :
  Permutation
    (computeTrending (L := Ref.lib) Ex2.twoViews (Ex.envAt Ex.t0) 10 20 1)
    (map (fun a => {| Article := a;
                      Score := getF (scoreEvents (L := Ref.lib) 10 20 1 Ex.t0
                                       [Ex.viewNow; Ex2.viewA2]) (models.ID a) |})
         [Ex.a1; Ex.a2]).
Proof.
  exact (X4_ranking_is_the_scored_articles (L := Ref.lib)
           (fun l less => proj1 (Ref_sortContract l less))
           Ex2.twoViews (Ex.envAt Ex.t0) 10 20 1).
Defined.

(** ** The resolver, beyond the claims *)


(** X6. The result of the resolver depends only on which ids are given,
    not on their order or multiplicity (the caller collects them by
    ranging over a map, whose order Go does not fix). *)
Theorem X6_resolver_ignores_id_order (w : World) (ids ids' : list string) :
  (forall id, In id ids <-> In id ids') ->
  loadArticlesByIDs w ids = loadArticlesByIDs w ids'.
Proof.
  intros Hsame. rewrite !loadArticlesByIDs_filter. apply filter_ext. intros a.
  destruct (memberOf ids a) eqn:E1, (memberOf ids' a) eqn:E2; try reflexivity.
  - apply memberOf_In, Hsame, memberOf_In in E1. congruence.
  - apply memberOf_In, Hsame, memberOf_In in E2. congruence.
Qed.

(** X6 on the ids a1, a2 given in two orders, one with a repetition. *)
Lemma X6_resolver_order_witness :
  loadArticlesByIDs Ex.sources ["a1"; "a2"] = loadArticlesByIDs Ex.sources ["a2"; "a1"; "a2"].
Proof.
  apply X6_resolver_ignores_id_order. intros id. cbn. tauto.
Defined.

(** ** More on float64: conversions from integers and the order [<=] *)

Module F64More.

Lemma round_aux_not_nan s m e l :
  0 <= m -> binary_round_aux prec emax s m e l <> S754_nan.
Proof.
  intros Hm. unfold binary_round_aux.
  pose proof (F64Round.shr_fexp_bounds m e l Hm) as [Hm1 _].
  destruct (shr_fexp prec emax m e l) as [mrs' e']. cbn [fst snd] in *.
  pose proof (F64Round.rne_bounds (shr_m mrs') (loc_of_shr_record mrs') ltac:(lia)) as Hr.
  set (m1 := round_nearest_even _ _) in *.
  pose proof (F64Round.shr_fexp_bounds m1 e' loc_Exact ltac:(lia)) as [Hm2 _].
  destruct (shr_fexp prec emax m1 e' loc_Exact) as [mrs'' e'']. cbn [fst snd] in *.
  destruct (shr_m mrs'') as [|p|p]; [discriminate | | lia].
  destruct (e'' <=? emax - prec); discriminate.
Qed.

Lemma of_uint63_not_nan n : is_nan (of_uint63 n) = false.
Proof.
  apply F64Facts.nan_spec. rewrite FloatAxioms.of_uint63_spec.
  unfold binary_normalize. destruct (Uint63.to_Z n) as [|p|p]; [discriminate | |].
  - unfold binary_round. destruct (shl_align p 0 _) as [mz ez].
    apply round_aux_not_nan. lia.
  - unfold binary_round. destruct (shl_align p 0 _) as [mz ez].
    apply round_aux_not_nan. lia.
Qed.

(** [float64(n)] is never NaN. *)
Lemma of_int_not_nan n : is_nan (F64.of_int n) = false.
Proof.
  unfold F64.of_int. destruct (n <? 0); [|apply of_uint63_not_nan].
  apply F64Facts.nan_spec. rewrite FloatAxioms.opp_spec.
  pose proof (of_uint63_not_nan (Uint63.of_Z (- n))) as H.
  apply F64Facts.nan_spec in H.
  destruct (Prim2SF (of_uint63 (Uint63.of_Z (- n)))); [discriminate.. | congruence | discriminate].
Qed.

Lemma leb_refl x : is_nan x = false -> (x <=? x)%float = true.
Proof.
  intros Hx. apply (F64Facts.leb_rank _ _ Hx Hx). unfold F64.lt3.
  destruct (F64.rank (Prim2SF x)) as [[a b] c]. lia.
Qed.

Lemma leb_trans x y z :
  (x <=? y)%float = true -> (y <=? z)%float = true -> (x <=? z)%float = true.
Proof.
  intros H1 H2.
  destruct (F64Facts.leb_not_nan _ _ H1) as [Hx Hy].
  destruct (F64Facts.leb_not_nan _ _ H2) as [_ Hz].
  apply (F64Facts.leb_rank _ _ Hx Hy) in H1. apply (F64Facts.leb_rank _ _ Hy Hz) in H2.
  apply (F64Facts.leb_rank _ _ Hx Hz). unfold F64.lt3 in *.
  destruct (F64.rank (Prim2SF x)) as [[a1 a2] a3].
  destruct (F64.rank (Prim2SF y)) as [[b1 b2] b3].
  destruct (F64.rank (Prim2SF z)) as [[c1 c2] c3]. lia.
Qed.

Lemma ltb_leb x y : (x <? y)%float = true -> (x <=? y)%float = true.
Proof.
  intros H. destruct (F64Facts.ltb_not_nan _ _ H) as [Hx Hy].
  apply (F64Facts.ltb_rank _ _ Hx Hy) in H.
  apply (F64Facts.leb_rank _ _ Hx Hy). unfold F64.lt3 in *.
  destruct (F64.rank (Prim2SF x)) as [[a1 a2] a3].
  destruct (F64.rank (Prim2SF y)) as [[b1 b2] b3]. lia.
Qed.

End F64More.
(** ** Start-up of the simulator *)

Lemma decodeAll_omap docs : forall acc, decodeAll docs acc = (acc ++ omap id docs)%list.
Proof.
  induction docs as [|[a|] docs IH]; intros acc; cbn [decodeAll].
  - now rewrite app_nil_r.
  - rewrite IH. cbn. now rewrite <- app_assoc.
  - apply IH.
Qed.

(** X7. Under the documented ranges of [math/rand], the start-up
    goroutine never panics and never touches the cache.  After a failed
    [Find] the event store is what it was; after a successful one it holds
    only events simulated from documents that decoded: none if no document
    decoded, and between 1000 and 2999 otherwise. *)
Theorem X7_startup_simulation {R : RandSource} (HR : randContract R)
    (st : State) (found : findResult) (seed : Z) (now : time.Time) :
  exists st',
    InitTrendingSimulator st found seed now = Returns st' /\
    cache st' = cache st /\
    match found with
    | FindErr _ => events st' = events st
    | Cursor docs =>
        Forall (simulatedFrom (omap id docs) now) (events st') /\
        (omap id docs = [] -> events st' = []) /\
        (omap id docs <> [] -> 1000 <= Z.of_nat (length (events st')) < 3000)
    end.
Proof.
  destruct found as [e|docs]; cbn [InitTrendingSimulator].
  { exists st. repeat split. }
  rewrite decodeAll_omap, app_nil_l. set (articles := omap id docs).
  unfold simulateEvents.
  destruct (Z.eqb_spec (Z.of_nat (length articles)) 0) as [H0|Hn0].
  - eexists. split; [reflexivity|]. cbn [events cache].
    repeat split; [constructor|].
    intros Hne. destruct articles; [congruence | cbn in H0; lia].
  - assert (Hne : articles <> []) by (intros E; rewrite E in Hn0; now apply Hn0).
    pose proof (proj1 HR (NewSource seed) 2000 ltac:(lia)) as Hk.
    destruct (Intn (NewSource seed) 2000) as [k rnd]. cbn in Hk.
    destruct (genLoop_ok HR articles now (Z.to_nat (1000 + k)) rnd [] Hne)
      as (new & -> & Hlen & Hall).
    eexists. split; [reflexivity|]. cbn [events cache app].
    repeat split; try assumption; try lia. intros E. congruence.
Qed.

(** X7 for a cursor whose second document fails to decode, with the
    reference source. *)
Lemma X7_startup_witness :
  exists st',
    InitTrendingSimulator (R := Ref.rand) Ex2.emptyStore Ex4.cursor 42 Ex.t0 = Returns st' /\
    cache st' = cache Ex2.emptyStore /\
    Forall (simulatedFrom [Ex4.b1; Ex4.b2; Ex4.b3] Ex.t0) (events st') /\
    ([Ex4.b1; Ex4.b2; Ex4.b3] = [] -> events st' = []) /\
    ([Ex4.b1; Ex4.b2; Ex4.b3] <> [] -> 1000 <= Z.of_nat (length (events st')) < 3000).
Proof.
  exact (X7_startup_simulation (R := Ref.rand) Ref_randContract
           Ex2.emptyStore Ex4.cursor 42 Ex.t0).
Defined.

(** ** The handlers (package [controllers]) *)

Section HandlerFacts.
Import controllers.
Context {L : GoLib} {S : GoStd}.

Lemma parseLimit_pos (s : string) : 1 <= parseLimit s.
Proof.
  unfold parseLimit. destruct (String.eqb s EmptyString); [lia|].
  destruct (fmt_Sscan_d s) as [v|]; [|lia].
  destruct (Z.ltb_spec 0 v); lia.
Qed.




Lemma topN_length {A : Type} (limit : Z) (res : list A) :
  0 <= limit ->
  Z.of_nat (length (topN limit res)) = Z.min limit (Z.of_nat (length res)).
Proof.
  intros Hl. unfold topN, min. rewrite length_take.
  destruct (Z.ltb_spec limit (Z.of_nat (length res))); lia.
Qed.

(** [sort.Slice] with [less] comparing a float64 key that is never NaN:
    ascending for [key x < key y], descending for [key x > key y]. *)
Lemma sort_ascending {A : Type} (Hsort : sortContractOf S) (key : A -> float) (l : list A) :
  Forall (fun x => is_nan (key x) = false) l ->
  StronglySorted (fun x y => (key x <=? key y)%float = true)
    (sort_Slice A l (fun x y => (key x <? key y)%float)).
Proof.
  intros Hnan. destruct (Hsort A l (fun x y => (key x <? key y)%float)) as [Hperm Hsorted].
  assert (Hn : forall x, In x l -> is_nan (key x) = false)
    by (now apply List.Forall_forall).
  apply (StronglySorted_weaken (fun x y => (key y <? key x)%float = false) _
           (fun x => is_nan (key x) = false)).
  - intros x y Hx Hy Hxy. now apply F64Facts.not_gt_leb.
  - apply List.Forall_forall. intros x Hx. apply Hn.
    eapply Permutation_in; [symmetry; exact Hperm | exact Hx].
  - apply Hsorted. repeat split.
    + intros x _. apply F64Facts.ltb_irrefl.
    + intros x y z _ _ _. apply F64Facts.ltb_trans.
    + intros x y z Hx Hy Hz. apply F64Facts.ltb_neg_trans; auto.
Qed.

Lemma sort_descending {A : Type} (Hsort : sortContractOf S) (key : A -> float) (l : list A) :
  Forall (fun x => is_nan (key x) = false) l ->
  StronglySorted (fun x y => (key y <=? key x)%float = true)
    (sort_Slice A l (fun x y => (key y <? key x)%float)).
Proof.
  intros Hnan. destruct (Hsort A l (fun x y => (key y <? key x)%float)) as [Hperm Hsorted].
  assert (Hn : forall x, In x l -> is_nan (key x) = false)
    by (now apply List.Forall_forall).
  apply (StronglySorted_weaken (fun x y => (key x <? key y)%float = false) _
           (fun x => is_nan (key x) = false)).
  - intros x y Hx Hy Hxy. now apply F64Facts.not_gt_leb.
  - apply List.Forall_forall. intros x Hx. apply Hn.
    eapply Permutation_in; [symmetry; exact Hperm | exact Hx].
  - apply Hsorted. repeat split.
    + intros x _. apply F64Facts.ltb_irrefl.
    + intros x y z _ _ _ H1 H2. eapply F64Facts.ltb_trans; eassumption.
    + intros x y z Hx Hy Hz H1 H2. apply (F64Facts.ltb_neg_trans _ (key y)); auto.
Qed.

(** [sort.Slice] by publication time, newest first. *)
Lemma sort_newest_first (Hsort : sortContractOf S) (l : list models.Article) :
  StronglySorted (fun x y => models.Publication y <= models.Publication x)
    (sort_Slice _ l newerFirst).
Proof.
  destruct (Hsort _ l newerFirst) as [_ Hsorted].
  apply (StronglySorted_weaken (fun x y => newerFirst y x = false) _ (fun _ => True)).
  - intros x y _ _ Hxy. unfold newerFirst in Hxy.
    apply Z.ltb_ge in Hxy. exact Hxy.
  - apply List.Forall_forall. auto.
  - apply Hsorted. unfold newerFirst. repeat split.
    + intros x _. apply Z.ltb_irrefl.
    + intros x y z _ _ _ H1 H2. apply Z.ltb_lt in H1, H2. apply Z.ltb_lt. lia.
    + intros x y z _ _ _ H1 H2. apply Z.ltb_ge in H1, H2. apply Z.ltb_ge. lia.
Qed.

Lemma nearStep_fold lat lon radius articles : forall acc,
  fold_left (nearStep lat lon radius) articles acc =
  (acc ++ map (fun a => {| withDist_A := a;
                           withDist_Dist := haversine lat lon (models.Latitude a)
                                              (models.Longitude a) |})
      (List.filter (fun a => (haversine lat lon (models.Latitude a) (models.Longitude a)
                              <=? radius)%float) articles))%list.
Proof.
  induction articles as [|a l IH]; intros acc; cbn [fold_left List.filter].
  - now rewrite app_nil_r.
  - rewrite IH. unfold nearStep.
    destruct (haversine lat lon (models.Latitude a) (models.Longitude a) <=? radius)%float;
      [|reflexivity].
    cbn [map]. now rewrite <- app_assoc.
Qed.

(** X10. When [lat] and [lon] do not both parse to zero and the store
    answers, the nearby handler answers 200 with: as total, the number of
    fetched articles whose distance [d] satisfies [d <= radius] (an article
    whose distance is NaN is never among them); as articles, the first
    [min(limit, total)] of them in order of non-decreasing distance, each
    with its own distance attached. *)
Theorem X10_nearby_handler (Hsort : sortContractOf S)
    (docs : list (option models.Article)) (c : Request) :
  let lat := parseFloatDefault (Query c "lat") 0 in
  let lon := parseFloatDefault (Query c "lon") 0 in
  let radius := parseFloatDefault (DefaultQuery c "radius" "10") 10 in
  let limit := parseLimit (DefaultQuery c "limit" "5") in
  ((lat =? 0) && (lon =? 0))%float = false ->
  exists near : list withDist,
    GetNearbyArticles (Cursor docs) c
    = ok (H_articles
            (map (fun x => toResponseArticle (withDist_A x) (Some (withDist_Dist x)))
                 (topN limit near))
            (Some (Z.of_nat (length near)))) /\
    Permutation near
      (map (fun a => {| withDist_A := a;
                        withDist_Dist := haversine lat lon (models.Latitude a)
                                           (models.Longitude a) |})
         (List.filter (fun a => (haversine lat lon (models.Latitude a) (models.Longitude a)
                                 <=? radius)%float)
            (fetchLoop docs []))) /\
    StronglySorted (fun x y => (withDist_Dist x <=? withDist_Dist y)%float = true) near /\
    Z.of_nat (length (topN limit near)) = Z.min limit (Z.of_nat (length near)).
Proof.
  intros lat lon radius limit Hll. unfold GetNearbyArticles.
  fold lat lon radius limit. rewrite Hll. cbn [fetchAllArticles].
  rewrite nearStep_fold, app_nil_l.
  set (l := map _ (List.filter _ (fetchLoop docs []))).
  exists (sort_Slice _ l byDistAsc). split; [reflexivity|].
  split; [symmetry; apply Hsort|].
  split; [|apply topN_length; pose proof (parseLimit_pos (DefaultQuery c "limit" "5")); unfold limit; lia].
  apply (sort_ascending Hsort withDist_Dist).
  apply List.Forall_forall. intros x Hx. unfold l in Hx.
  apply in_map_iff in Hx as (a & <- & Ha). apply filter_In in Ha as [_ Ha].
  cbn [withDist_Dist]. now apply F64Facts.leb_not_nan in Ha.
Qed.

(** X11. When the store answers, the score handler answers 200 with: as
    total, the number of fetched articles with
    [RelevanceScore >= threshold] (none when the threshold is NaN); as
    articles, the first [min(limit, total)] of them in order of
    non-increasing relevance score. *)
Theorem X11_score_handler (Hsort : sortContractOf S)
    (docs : list (option models.Article)) (c : Request) :
  let threshold := parseFloatDefault (DefaultQuery c "threshold" "0.7") c0_7 in
  let limit := parseLimit (DefaultQuery c "limit" "5") in
  exists res : list models.Article,
    GetArticlesByScore (Cursor docs) c
    = ok (H_articles (map (fun a => toResponseArticle a None) (topN limit res))
            (Some (Z.of_nat (length res)))) /\
    Permutation res (List.filter (atLeast threshold) (fetchLoop docs [])) /\
    StronglySorted
      (fun x y => (models.RelevanceScore y <=? models.RelevanceScore x)%float = true) res /\
    Z.of_nat (length (topN limit res)) = Z.min limit (Z.of_nat (length res)) /\
    (is_nan threshold = true -> res = []).
Proof.
  intros threshold limit. unfold GetArticlesByScore. fold threshold limit.
  cbn [fetchAllArticles].
  set (l := List.filter (atLeast threshold) (fetchLoop docs [])).
  exists (sort_Slice _ l byRelevanceDesc). split; [reflexivity|].
  split; [symmetry; apply Hsort|].
  split; [|split].
  - apply (sort_descending Hsort models.RelevanceScore).
    apply List.Forall_forall. intros a Ha. unfold l in Ha.
    apply filter_In in Ha as [_ Ha]. unfold atLeast in Ha.
    now apply F64Facts.leb_not_nan in Ha.
  - apply topN_length. pose proof (parseLimit_pos (DefaultQuery c "limit" "5")).
    unfold limit. lia.
  - intros Hnan.
    assert (Hl : l = []).
    { unfold l. induction (fetchLoop docs []) as [|a r IH]; [reflexivity|].
      cbn [List.filter]. unfold atLeast at 1.
      destruct (threshold <=? models.RelevanceScore a)%float eqn:E; [|exact IH].
      apply F64Facts.leb_not_nan in E as [E _]. congruence. }
    rewrite Hl. apply Permutation_nil. apply Hsort.
Qed.

(** X12. When the store answers, the category handler and (for a
    non-empty [source]) the source handler answer 200 with: as total, the
    number of fetched articles that match (an article matching through
    several of its categories counts once); as articles, the first
    [min(limit, total)] of them, newest publication time first. *)
Theorem X12_category_and_source_handlers (Hsort : sortContractOf S)
    (docs : list (option models.Article)) (c : Request) :
  let limit := parseLimit (DefaultQuery c "limit" "5") in
  (exists res : list models.Article,
     GetArticlesByCategory (Cursor docs) c
     = ok (H_articles (map (fun a => toResponseArticle a None) (topN limit res))
             (Some (Z.of_nat (length res)))) /\
     Permutation res
       (List.filter (inCategory (strings_ToLower (Query c "category"))) (fetchLoop docs [])) /\
     StronglySorted (fun x y => models.Publication y <= models.Publication x) res) /\
  (Query c "source" <> EmptyString ->
   exists res : list models.Article,
     GetArticlesBySource (Cursor docs) c
     = ok (H_articles (map (fun a => toResponseArticle a None) (topN limit res))
             (Some (Z.of_nat (length res)))) /\
     Permutation res
       (List.filter (fromSource (strings_ToLower (Query c "source"))) (fetchLoop docs [])) /\
     StronglySorted (fun x y => models.Publication y <= models.Publication x) res).
Proof.
  intros limit. split.
  - unfold GetArticlesByCategory. fold limit. cbn [fetchAllArticles].
    eexists. split; [reflexivity|]. split; [symmetry; apply Hsort|].
    apply (sort_newest_first Hsort).
  - intros Hsrc. unfold GetArticlesBySource. fold limit.
    destruct (String.eqb_spec (Query c "source") EmptyString) as [E|_]; [contradiction|].
    cbn [fetchAllArticles].
    eexists. split; [reflexivity|]. split; [symmetry; apply Hsort|].
    apply (sort_newest_first Hsort).
Qed.

Lemma fetchLoop_map docs : forall out,
  fetchLoop docs out =
  (out ++ map (fun a => match time_ParseRFC3339 (models.PublicationRaw a) with
                        | Some t => withPublication a t
                        | None => a
                        end) (omap id docs))%list.
Proof.
  induction docs as [|[a|] docs IH]; intros out; cbn [fetchLoop].
  - now rewrite app_nil_r.
  - rewrite IH. cbn. now rewrite <- app_assoc.
  - apply IH.
Qed.

(** X17. Fetching for the handlers never fails on a document: it keeps
    the documents that decode, in cursor order, and skips the others.  These
    are the documents the start-up of the simulator keeps, each with its
    publication time set when its raw date parses and left as decoded
    otherwise; only a failed [Find] gives an error, with no articles. *)
Theorem X17_fetch_keeps_decodable (docs : list (option models.Article)) (e : string) :
  fetchAllArticles (Cursor docs)
  = (map (fun a => match time_ParseRFC3339 (models.PublicationRaw a) with
                   | Some t => withPublication a t
                   | None => a
                   end) (decodeAll docs []), None) /\
  length (fst (fetchAllArticles (Cursor docs))) = length (omap id docs) /\
  fetchAllArticles (FindErr e) = ([], Some e).
Proof.
  cbn [fetchAllArticles fst]. rewrite fetchLoop_map, decodeAll_omap, !app_nil_l.
  repeat split. now rewrite length_map.
Qed.

End HandlerFacts.

Section SearchFacts.
Import controllers.
Context {S : GoStd}.

Lemma searchStep_max qLower cands m a :
  (1 <=? m)%float = true ->
  let m' := snd (searchStep qLower (cands, m) a) in
  (m <=? m')%float = true /\ (textCount qLower a <=? m')%float = true /\
  (m' = m \/ m' = textCount qLower a).
Proof.
  intros Hm. cbn [searchStep snd].
  pose proof (F64More.of_int_not_nan
    (strings_Count (strings_ToLower (models.Title a ++ " " ++ models.Description a)) qLower))
    as Hc.
  fold (textCount qLower a) in Hc.
  destruct (F64Facts.leb_not_nan _ _ Hm) as [_ Hmn].
  destruct (m <? textCount qLower a)%float eqn:E.
  - repeat split; [now apply F64More.ltb_leb | now apply F64More.leb_refl | now right].
  - repeat split; [now apply F64More.leb_refl | now apply F64Facts.not_gt_leb | now left].
Qed.

Lemma searchScan_from qLower articles : forall cands m,
  (1 <=? m)%float = true ->
  let r := fold_left (searchStep qLower) articles (cands, m) in
  (m <=? snd r)%float = true /\
  Forall (fun a => (textCount qLower a <=? snd r)%float = true) articles /\
  (snd r = m \/ exists a, In a articles /\ snd r = textCount qLower a) /\
  fst r = (cands ++ map (fun a => {| scored_A := a; scored_Score := textCount qLower a |})
                      (List.filter
                         (fun a => ((0 <? textCount qLower a)
                                    || (0 <? models.RelevanceScore a))%float) articles))%list.
Proof.
  induction articles as [|a l IH]; intros cands m Hm; cbn [fold_left List.filter].
  - cbn [fst snd]. rewrite app_nil_r. repeat split; [|constructor|now left].
    apply F64More.leb_refl. now apply F64Facts.leb_not_nan in Hm.
  - destruct (searchStep_max qLower cands m a Hm) as (H1 & H2 & H3).
    destruct (searchStep qLower (cands, m) a) as [cands' m'] eqn:Es. cbn [snd] in *.
    assert (Hm' : (1 <=? m')%float = true) by (eapply F64More.leb_trans; eassumption).
    destruct (IH cands' m' Hm') as (I1 & I2 & I3 & I4).
    cbv zeta. repeat split.
    + eapply F64More.leb_trans; eassumption.
    + constructor; [eapply F64More.leb_trans; eassumption | exact I2].
    + destruct I3 as [I3|(b & Hb & I3)].
      * rewrite I3. destruct H3 as [->| ->]; [now left|]. right. exists a. split; [now left|reflexivity].
      * right. exists b. split; [now right | exact I3].
    + rewrite I4. unfold searchStep in Es. injection Es as Ec _. subst cands'.
      destruct ((0 <? textCount qLower a) || (0 <? models.RelevanceScore a))%float;
        [|reflexivity].
      cbn [map]. now rewrite <- app_assoc.
Qed.

(** X13. After the first loop of the search handler, [maxTextCount] is at
    least 1 and at least the match count of every fetched article (it is 1
    or the count of one of them), so the normalisation never divides by
    zero or by less than a count; and the candidates are, in fetch order,
    the articles with a positive count or a positive relevance score. *)
Theorem X13_search_scan (qLower : string) (articles : list models.Article) :
  (1 <=? snd (searchScan qLower articles))%float = true /\
  Forall (fun a => (textCount qLower a <=? snd (searchScan qLower articles))%float = true)
    articles /\
  (snd (searchScan qLower articles) = 1%float \/
   exists a, In a articles /\ snd (searchScan qLower articles) = textCount qLower a) /\
  fst (searchScan qLower articles)
  = map (fun a => {| scored_A := a; scored_Score := textCount qLower a |})
      (List.filter
         (fun a => ((0 <? textCount qLower a) || (0 <? models.RelevanceScore a))%float)
         articles).
Proof.
  unfold searchScan.
  destruct (searchScan_from qLower articles [] 1%float ltac:(reflexivity))
    as (H1 & H2 & H3 & H4).
  repeat split; assumption.
Qed.

End SearchFacts.

(** ** The query processor *)

Section ProcessorFacts.
Context {S : GoStd}.

Lemma tagStep_fold q tag l : forall acc it,
  fold_left (tagStep q tag) l (acc, it) =
  ((acc ++ List.filter (strings_Contains q) l)%list,
   match List.filter (strings_Contains q) l with
   | [] => it
   | _ :: _ => tag
   end).
Proof.
  induction l as [|x l IH]; intros acc it; cbn [fold_left List.filter].
  - now rewrite app_nil_r.
  - unfold tagStep at 2. destruct (strings_Contains q x); cbn [fst].
    + rewrite IH, <- app_assoc. cbn [app].
      now destruct (List.filter (strings_Contains q) l).
    + apply IH.
Qed.

Lemma search_stays (b : bool) (intent : string) :
  (if b && String.eqb intent "search" then "search" else intent) = intent.
Proof.
  destruct b; [|reflexivity]. cbn.
  destruct (String.eqb_spec intent "search"); congruence.
Qed.

Lemma ExtractEntitiesAndIntent_shape (order : list string) (query : string) :
  let q := strings_ToLower query in
  let r := fst (ExtractEntitiesAndIntent order query) in
  snd (ExtractEntitiesAndIntent order query) = None /\
  Location r = None /\
  Categories r = List.filter (strings_Contains q) categories /\
  Sources r = List.filter (strings_Contains q) sources /\
  Intent r =
    match Categories r, Sources r with
    | _ :: _, _ => "category"
    | [], _ :: _ => "source"
    | [], [] =>
        if strings_Contains q "near me" || strings_Contains q "nearby"
           || strings_Contains q "close to" || strings_Contains q "around"
        then "nearby" else "search"
    end.
Proof.
  intros q r. unfold r, ExtractEntitiesAndIntent. cbv zeta. fold q.
  rewrite !tagStep_fold. cbn [fst snd Location Categories Sources Intent app].
  rewrite ?tagStep_fold. cbn [fst snd Location Categories Sources Intent app].
  rewrite search_stays.
  repeat split.
  destruct (List.filter (strings_Contains q) categories) as [|c cs];
    destruct (List.filter (strings_Contains q) sources) as [|s ss]; reflexivity.
Qed.

(** X14. The analysis of a query never fails and never carries a
    location.  Its categories and sources are the known ones that the
    lower-cased query contains, in the order of the built-in lists.  The
    intent is [category] when a category was found, else [source] when a
    source was found (so a category wins over a source even though the
    source loop runs later), else [nearby] when the query holds one of the
    four location phrases, else [search]. *)
Theorem X14_intent_precedence (order : list string) (query : string) :
  let q := strings_ToLower query in
  let r := fst (ExtractEntitiesAndIntent order query) in
  snd (ExtractEntitiesAndIntent order query) = None /\
  Location r = None /\
  Categories r = List.filter (strings_Contains q) categories /\
  Sources r = List.filter (strings_Contains q) sources /\
  Intent r =
    match Categories r, Sources r with
    | _ :: _, _ => "category"
    | [], _ :: _ => "source"
    | [], [] =>
        if strings_Contains q "near me" || strings_Contains q "nearby"
           || strings_Contains q "close to" || strings_Contains q "around"
        then "nearby" else "search"
    end.
Proof. exact (ExtractEntitiesAndIntent_shape order query). Qed.

Lemma properLoop_lower (words : list string) :
  (forall w, In w words -> startsUpper w = false) ->
  forall i ents, properLoop i words ents = ents.
Proof.
  induction words as [|w ws IH]; intros Hw i ents; [reflexivity|].
  cbn [properLoop]. rewrite IH by (intros; apply Hw; now right).
  unfold addProper. rewrite (Hw w) by now left.
  now destruct ((Z.of_nat (String.length w) <? 3) || isCommonWord (strings_ToLower w)).
Qed.

Lemma fields_lower (Hlow : lowerContract S) (Hf : fieldsContract S) (s w : string) :
  In w (strings_Fields (strings_ToLower s)) -> startsUpper w = false.
Proof.
  intros Hw. destruct w as [|c w']; [reflexivity|]. cbn [startsUpper].
  apply (Hlow s). apply (Hf _ (String c w')); [assumption | now left].
Qed.

Lemma addKnown_fold lowerQuery (order : list string) : forall l acc,
  (forall k, In k l -> In k order) ->
  Forall (fun e => exists k, In k order /\ strings_Contains lowerQuery k = true /\
                             e = strings_Title k) acc ->
  Forall (fun e => exists k, In k order /\ strings_Contains lowerQuery k = true /\
                             e = strings_Title k) (fold_left (addKnown lowerQuery) l acc).
Proof.
  induction l as [|x l IH]; intros acc Hl Hacc; [exact Hacc|].
  cbn [fold_left]. apply IH; [intros; apply Hl; now right|].
  unfold addKnown. destruct (strings_Contains lowerQuery x) eqn:Hc; [|exact Hacc].
  destruct (foundIn acc x); [exact Hacc|].
  apply Forall_app. split; [exact Hacc|]. constructor; [|constructor].
  exists x. repeat split; [apply Hl; now left | exact Hc].
Qed.

(** X15. When [strings.ToLower] leaves no byte in ['A','Z'] and the
    fields of a string are made of its bytes, the pass over the words of
    the query adds nothing: the words come from the lower-cased query, so
    none starts with a capital.  The entities of the analysis are then what
    the pass over the known entities built, each the title-cased form of a
    known entity that the query contains. *)
Theorem X15_entities_are_known_entities
    (Hlow : lowerContract S) (Hf : fieldsContract S)
    (order : list string) (query : string) :
  let lowerQuery := strings_ToLower (strings_ToLower query) in
  Entities (fst (ExtractEntitiesAndIntent order query))
  = fold_left (addKnown lowerQuery) order [] /\
  Forall (fun e => exists k, In k order /\ strings_Contains lowerQuery k = true /\
                             e = strings_Title k)
    (Entities (fst (ExtractEntitiesAndIntent order query))).
Proof.
  intros lowerQuery.
  assert (HE : Entities (fst (ExtractEntitiesAndIntent order query))
               = fold_left (addKnown lowerQuery) order []).
  { unfold ExtractEntitiesAndIntent. cbv zeta. rewrite !tagStep_fold. cbn [fst snd].
    rewrite ?tagStep_fold. cbn [fst snd Entities].
    apply properLoop_lower. intros w. apply (fields_lower Hlow Hf). }
  split; [exact HE|]. rewrite HE.
  apply addKnown_fold; [auto | constructor].
Qed.

(** X16. The query handler never answers 500: it answers 400 exactly when
    the [query] parameter is missing or empty, and otherwise 200 with the
    analysis of the query as given, whose intent is one of [search],
    [nearby], [category] and [source]. *)
Theorem X16_process_handler (order : list string) (c : controllers.Request) :
  if String.eqb (controllers.Query c "query") EmptyString
  then controllers.ProcessQuery order c = controllers.badRequest "query required"
  else
    controllers.ProcessQuery order c
    = controllers.ok (controllers.H_analysis
                        (fst (ExtractEntitiesAndIntent order (controllers.Query c "query")))) /\
    In (Intent (fst (ExtractEntitiesAndIntent order (controllers.Query c "query"))))
       ["search"; "nearby"; "category"; "source"].
Proof.
  unfold controllers.ProcessQuery.
  destruct (String.eqb (controllers.Query c "query") EmptyString); [reflexivity|].
  destruct (ExtractEntitiesAndIntent_shape order (controllers.Query c "query"))
    as (Herr & _ & _ & _ & Hint).
  destruct (ExtractEntitiesAndIntent order (controllers.Query c "query")) as [out err].
  cbn [fst snd] in *. subst err. split; [reflexivity|]. rewrite Hint.
  destruct (Categories out); [destruct (Sources out)|]; cbn; auto.
  destruct (_ || _ || _ || _); auto.
Qed.

End ProcessorFacts.

Lemma RefStd_sortContract : sortContractOf RefStd.std.
Proof.
  intros A l less. split; [apply insertionSort_perm|].
  intros (Hi & Ht & Hn).
  apply (insertionSort_sorted less (fun x => In x l)); auto.
  apply List.Forall_forall. auto.
Qed.

Lemma RefStd_lowerContract : lowerContract RefStd.std.
Proof.
  intros s c. cbn [strings_ToLower RefStd.std].
  induction s as [|a s IH]; cbn [RefStd.toLower list_ascii_of_string]; [intros []|].
  intros [<-|Hc]; [|now apply IH].
  destruct a as [[] [] [] [] [] [] [] []]; reflexivity.
Qed.

Lemma rev_string_bytes s : forall acc,
  list_ascii_of_string (RefStd.rev_string s acc)
  = (rev (list_ascii_of_string s) ++ list_ascii_of_string acc)%list.
Proof.
  induction s as [|a s IH]; intros acc; cbn [RefStd.rev_string list_ascii_of_string rev];
    [reflexivity|].
  rewrite IH. cbn [list_ascii_of_string]. now rewrite <- app_assoc.
Qed.

Lemma fieldsFrom_bytes s : forall cur w c,
  In w (RefStd.fieldsFrom s cur) -> In c (list_ascii_of_string w) ->
  In c (list_ascii_of_string s) \/ In c (list_ascii_of_string cur).
Proof.
  assert (Hrev : forall cur c,
            In c (list_ascii_of_string (RefStd.rev_string cur EmptyString)) ->
            In c (list_ascii_of_string cur)).
  { intros cur c. rewrite rev_string_bytes, app_nil_r. intros H. now apply in_rev. }
  induction s as [|a s IH]; intros cur w c Hw Hc; cbn [RefStd.fieldsFrom] in Hw.
  - destruct cur; [destruct Hw|]. destruct Hw as [<-|[]]. right. now apply Hrev.
  - cbn [list_ascii_of_string]. destruct (RefStd.isSpace a).
    + destruct cur.
      * destruct (IH _ _ _ Hw Hc) as [H|H]; [left; now right | destruct H].
      * destruct Hw as [<-|Hw]; [right; now apply Hrev|].
        destruct (IH _ _ _ Hw Hc) as [H|H]; [left; now right | destruct H].
    + destruct (IH _ _ _ Hw Hc) as [H|H]; [left; now right|].
      cbn [list_ascii_of_string] in H. destruct H as [<-|H]; [left; now left | now right].
Qed.

Lemma RefStd_fieldsContract : fieldsContract RefStd.std.
Proof.
  intros s w c Hw Hc. cbn [strings_Fields RefStd.std] in Hw.
  destruct (fieldsFrom_bytes s EmptyString w c Hw Hc) as [H|[]]. exact H.
Qed.

(** X10 on three articles near (10, 20), asking for two. *)
Lemma X10_nearby_witness :
  exists near : list controllers.withDist,
    controllers.GetNearbyArticles (L := Ref.lib) (S := RefStd.std) Ex4.cursor Ex4.nearbyRequest
    = controllers.ok (controllers.H_articles
        (map (fun x => controllers.toResponseArticle (controllers.withDist_A x)
                         (Some (controllers.withDist_Dist x)))
             (controllers.topN 2 near))
        (Some 3)) /\
    StronglySorted
      (fun x y => (controllers.withDist_Dist x <=? controllers.withDist_Dist y)%float = true)
      near /\
    length (controllers.topN 2 near) = 2%nat.
Proof.
  destruct (X10_nearby_handler (L := Ref.lib) (S := RefStd.std) RefStd_sortContract
              [Some Ex4.b1; None; Some Ex4.b2; Some Ex4.b3] Ex4.nearbyRequest)
    as (near & H1 & H2 & H3 & H4).
  - vm_compute. reflexivity.
  - apply Permutation_length in H2.
    assert (Hlen : length near = 3%nat) by (rewrite H2; vm_compute; reflexivity).
    assert (Hl : controllers.parseLimit (S := RefStd.std)
                   (controllers.DefaultQuery Ex4.nearbyRequest "limit" "5") = 2)
      by (vm_compute; reflexivity).
    rewrite Hl, Hlen in H1, H4.
    exists near. split; [exact H1|]. split; [exact H3|].
    apply Nat2Z.inj. rewrite H4. reflexivity.
Defined.

(** X11 on the same articles with threshold 0, asking for two. *)
Lemma X11_score_witness :
  exists res : list models.Article,
    controllers.GetArticlesByScore (S := RefStd.std) Ex4.cursor Ex4.scoreRequest
    = controllers.ok (controllers.H_articles
        (map (fun a => controllers.toResponseArticle a None) (controllers.topN 2 res))
        (Some (Z.of_nat (length res)))) /\
    Permutation res [Ex4.b1; Ex4.b2; Ex4.b3] /\
    StronglySorted
      (fun x y => (models.RelevanceScore y <=? models.RelevanceScore x)%float = true) res.
Proof.
  destruct (X11_score_handler (S := RefStd.std) RefStd_sortContract
              [Some Ex4.b1; None; Some Ex4.b2; Some Ex4.b3] Ex4.scoreRequest)
    as (res & H1 & H2 & H3 & _).
  exists res. split; [exact H1|]. split; [exact H2 | exact H3].
Defined.

(** X12 on the same articles, for the category business and the source
    REUTERS. *)
Lemma X12_category_and_source_witness :
  (exists res : list models.Article,
     controllers.GetArticlesByCategory (S := RefStd.std) Ex4.cursor Ex4.sourceRequest
     = controllers.ok (controllers.H_articles
         (map (fun a => controllers.toResponseArticle a None) (controllers.topN 5 res))
         (Some (Z.of_nat (length res)))) /\
     Permutation res [Ex4.b1; Ex4.b2; Ex4.b3] /\
     StronglySorted (fun x y => models.Publication y <= models.Publication x) res) /\
  (exists res : list models.Article,
     controllers.GetArticlesBySource (S := RefStd.std) Ex4.cursor Ex4.sourceRequest
     = controllers.ok (controllers.H_articles
         (map (fun a => controllers.toResponseArticle a None) (controllers.topN 5 res))
         (Some (Z.of_nat (length res)))) /\
     Permutation res [Ex4.b1; Ex4.b2; Ex4.b3] /\
     StronglySorted (fun x y => models.Publication y <= models.Publication x) res).
Proof.
  destruct (X12_category_and_source_handlers (S := RefStd.std) RefStd_sortContract
              [Some Ex4.b1; None; Some Ex4.b2; Some Ex4.b3] Ex4.sourceRequest)
    as [(res & H1 & H2 & H3) Hsrc].
  split.
  - exists res. split; [exact H1|]. split; [exact H2 | exact H3].
  - destruct Hsrc as (res' & H1' & H2' & H3'); [vm_compute; discriminate|].
    exists res'. split; [exact H1'|]. split; [exact H2' | exact H3'].
Defined.

(** X15 on a query with two known entities and a capitalised word that
    is not one. *)
Lemma X15_entities_witness :
  Entities (fst (ExtractEntitiesAndIntent (S := RefStd.std) knownEntities
                   "What did Modi say to Macron in India"))
  = ["India"; "Modi"].
Proof.
  rewrite (proj1 (X15_entities_are_known_entities (S := RefStd.std)
                    RefStd_lowerContract RefStd_fieldsContract knownEntities
                    "What did Modi say to Macron in India")).
  vm_compute. reflexivity.
Defined.
